(** * NestFest competition platform: models, services and the rapid-vote stage

    A shallow embedding of [application_models.py] (the [User], [Team],
    [Competition], [Submission] and [VotingSession] models with the
    [CompetitionService] and [JudgingService] layers) and of the rapid-vote
    columns of [NestFestMLPipeline.detect_anomalies] in
    [nestfest_ml_pipeline.py].

    Conventions.
    - Python [int] and naive [datetime] values are [Z]; the clock
      [datetime.utcnow()] is an argument, one per read.
    - [raise ValueError(reason)] and a read of an attribute that was never
      assigned are values of [exn]; a method that can raise returns a
      [result].
    - Attributes that [__init__] does not assign (the four windows of a
      competition, [submitted_at], [is_final], [start_time], [end_time],
      [prevent_vote_changing]) are [option] fields, [None] meaning absent.
    - [uuid.uuid4()], the invite code and the slug are arguments of the
      constructors; the two generators, [_generate_invite_code] and
      [_generate_slug], are modelled on their own.
    - Methods whose body is a SQL query followed by a placeholder are read
      through a [Storage] record holding what the query returns. *)

From Stdlib Require Import ZArith NArith Ascii String List Bool Lia.
From stdpp Require Import base option strings list gmap.
Import ListNotations.

Local Open Scope Z_scope.

(* ===================================================================== *)
(** ** Exceptions and results *)
(* ===================================================================== *)

Inductive exn : Type :=
  | ValueError (reason : string)
  | AttributeError (attribute : string).

Inductive result (A : Type) : Type :=
  | Ok (a : A)
  | Raise (e : exn).

Arguments Ok {A} a.
Arguments Raise {A} e.

(** Sequencing stops at the first exception; [x ← m; k] is stdpp's
    notation for [mbind]. *)
#[global] Instance result_ret : MRet result := fun A a => Ok a.
#[global] Instance result_bind : MBind result := fun A B k m =>
  match m with
  | Ok a => k a
  | Raise e => Raise e
  end.

(** The class an [except] clause dispatches on. *)
Definition exn_class (e : exn) : string :=
  match e with
  | ValueError _ => "ValueError"
  | AttributeError _ => "AttributeError"
  end.

(** The message of the exception, [str(e)]. *)
Definition exn_reason (e : exn) : string :=
  match e with
  | ValueError r => r
  | AttributeError a => a
  end.

(* ===================================================================== *)
(** ** Enums *)
(* ===================================================================== *)

Inductive CompetitionType : Type := INDIVIDUAL | TEAM | HYBRID.

Inductive CompetitionStatus : Type :=
  | CS_DRAFT | CS_PUBLISHED | CS_ACTIVE | CS_COMPLETED | CS_CANCELLED.

Inductive SubmissionStatus : Type :=
  | DRAFT | SUBMITTED | UNDER_REVIEW | REVIEWED | DISQUALIFIED.

Inductive VotingType : Type :=
  | TRADITIONAL | QUADRATIC | RANKED_CHOICE | APPROVAL.

Inductive AccountStatus : Type := ACTIVE | SUSPENDED | BANNED | PENDING.

#[global] Instance CompetitionType_eq_dec : EqDecision CompetitionType.
Proof. solve_decision. Defined.
#[global] Instance CompetitionStatus_eq_dec : EqDecision CompetitionStatus.
Proof. solve_decision. Defined.
#[global] Instance SubmissionStatus_eq_dec : EqDecision SubmissionStatus.
Proof. solve_decision. Defined.
#[global] Instance AccountStatus_eq_dec : EqDecision AccountStatus.
Proof. solve_decision. Defined.

(* ===================================================================== *)
(** ** Records *)
(* ===================================================================== *)

Record User : Type := mkUser {
  user_id : string;
  email : string;
  first_name : string;
  last_name : string;
  account_status : AccountStatus;
  email_verified : bool;
  user_created_at : Z
}.

(** [User.__init__]. *)
Definition User_init (uuid e fn ln : string) (now : Z) : User :=
  {| user_id := uuid; email := e; first_name := fn; last_name := ln;
     account_status := ACTIVE; email_verified := false;
     user_created_at := now |}.

Record Team : Type := mkTeam {
  team_id : string;
  team_name : string;
  captain_id : string;
  max_members : Z;
  current_member_count : Z;
  team_status : string;
  invite_code : string;
  team_created_at : Z
}.

(** [Team.__init__]: the count starts at 1 whatever [max_members] is. *)
Definition Team_init (uuid name captain : string) (max_members : Z)
    (code : string) (now : Z) : Team :=
  {| team_id := uuid; team_name := name; captain_id := captain;
     max_members := max_members; current_member_count := 1;
     team_status := "forming"; invite_code := code;
     team_created_at := now |}.

Record Competition : Type := mkCompetition {
  competition_id : string;
  competition_name : string;
  slug : string;
  category_id : string;
  competition_type : CompetitionType;
  competition_status : CompetitionStatus;
  max_file_size_mb : Z;
  competition_created_by : string;
  competition_created_at : Z;
  registration_start : option Z;
  registration_end : option Z;
  competition_start : option Z;
  competition_end : option Z
}.

(** [Competition.__init__]: individual, draft, no window assigned yet. *)
Definition Competition_init (uuid name slug category created_by : string)
    (now : Z) : Competition :=
  {| competition_id := uuid; competition_name := name; slug := slug;
     category_id := category; competition_type := INDIVIDUAL;
     competition_status := CS_DRAFT; max_file_size_mb := 100;
     competition_created_by := created_by; competition_created_at := now;
     registration_start := None; registration_end := None;
     competition_start := None; competition_end := None |}.

(** Modelled from the spec: the class [Registration] is constructed by
    [Competition.register_participant] but is declared nowhere in the
    sources; the record holds the four keyword arguments of that call
    (competition reference, participant type, participant reference and
    registration data). *)
Record Registration : Type := mkRegistration {
  reg_competition_id : string;
  reg_participant_type : string;
  reg_participant_id : string;
  registration_data : gmap string string
}.

(* ===================================================================== *)
(** ** Competition: registration *)
(* ===================================================================== *)

(** [Competition._validate_registration]. *)
Definition _validate_registration (c : Competition)
    (participant_id participant_type : string) : bool * string :=
  if negb (String.eqb participant_type "individual"
           || String.eqb participant_type "team") then
    (false, "Invalid participant type"%string)
  else if String.eqb participant_type "individual"
          && bool_decide (competition_type c = TEAM) then
    (false, "Individual registration not allowed for team competition"%string)
  else if String.eqb participant_type "team"
          && bool_decide (competition_type c = INDIVIDUAL) then
    (false, "Team registration not allowed for individual competition"%string)
  else
    (true, "Registration valid"%string).

(** [Competition.register_participant]; [registration_data or {}] turns an
    absent or empty dictionary into the empty one. *)
Definition register_participant (c : Competition)
    (participant_id participant_type : string)
    (data : option (gmap string string)) : result Registration :=
  let '(can_register, reason) :=
    _validate_registration c participant_id participant_type in
  if negb can_register then Raise (ValueError reason)
  else Ok {| reg_competition_id := competition_id c;
             reg_participant_type := participant_type;
             reg_participant_id := participant_id;
             registration_data := default ∅ data |}.

(** [Competition.is_registration_open]. The [and] and the chained
    comparison short-circuit from left to right, so a window attribute is
    read only when the test before it succeeded. *)
Definition is_registration_open (c : Competition) (now : Z) : result bool :=
  if bool_decide (competition_status c = CS_PUBLISHED) then
    match registration_start c with
    | None => Raise (AttributeError "registration_start")
    | Some rs =>
        if rs <=? now then
          match registration_end c with
          | None => Raise (AttributeError "registration_end")
          | Some re => Ok (now <=? re)
          end
        else Ok false
    end
  else Ok false.

(** [Competition.is_submission_open]. *)
Definition is_submission_open (c : Competition) (now : Z) : result bool :=
  if bool_decide (competition_status c = CS_ACTIVE) then
    match competition_start c with
    | None => Raise (AttributeError "competition_start")
    | Some cs =>
        if cs <=? now then
          match competition_end c with
          | None => Raise (AttributeError "competition_end")
          | Some ce => Ok (now <=? ce)
          end
        else Ok false
    end
  else Ok false.

(* ===================================================================== *)
(** ** Team capacity *)
(* ===================================================================== *)

(** [Team.can_add_member]. *)
Definition can_add_member (t : Team) : bool * string :=
  if negb (String.eqb (team_status t) "forming") then
    (false, "Team is not accepting new members"%string)
  else if current_member_count t >=? max_members t then
    (false, "Team is full"%string)
  else
    (true, "Can add member"%string).

(** Modelled from the spec: accepting a member is not in the sources
    (section 4.2: the count changes only on acceptance, an operation of the
    API layer constrained by the same capacity check). The step raises the
    reason of [can_add_member] when the check fails and adds one to the
    count otherwise. *)
Definition accept_member (t : Team) : result Team :=
  let '(can_add, reason) := can_add_member t in
  if negb can_add then Raise (ValueError reason)
  else Ok {| team_id := team_id t; team_name := team_name t;
             captain_id := captain_id t; max_members := max_members t;
             current_member_count := current_member_count t + 1;
             team_status := team_status t; invite_code := invite_code t;
             team_created_at := team_created_at t |}.

(** The states a team goes through: gated acceptances, one after another. *)
Inductive team_reaches (t0 : Team) : Team -> Prop :=
  | reaches_start : team_reaches t0 t0
  | reaches_accept t t' :
      team_reaches t0 t -> accept_member t = Ok t' -> team_reaches t0 t'.

(** The invariant of section 3 and section 8. *)
Definition team_invariant (t : Team) : Prop :=
  1 <= current_member_count t <= max_members t.

(* ===================================================================== *)
(** ** Submission *)
(* ===================================================================== *)

Record Submission : Type := mkSubmission {
  submission_id : string;
  sub_competition_id : string;
  round_id : string;
  registration_id : string;
  title : string;
  description : string;
  version : Z;
  submission_status : SubmissionStatus;
  sub_created_at : Z;
  submitted_at : option Z;
  is_final : option bool
}.

(** [Submission.__init__]. *)
Definition Submission_init (uuid competition round registration title : string)
    (now : Z) : Submission :=
  {| submission_id := uuid; sub_competition_id := competition;
     round_id := round; registration_id := registration; title := title;
     description := ""; version := 1; submission_status := DRAFT;
     sub_created_at := now; submitted_at := None; is_final := None |}.

(** A row of [competition_rounds] as [get_round_info] selects it; a NULL
    deadline is [None]. *)
Record RoundInfo : Type := mkRoundInfo {
  round_name : string;
  submission_deadline : option Z;
  judging_deadline : option Z
}.

(* ===================================================================== *)
(** ** Voting session *)
(* ===================================================================== *)

Record VotingSession : Type := mkVotingSession {
  session_id : string;
  vs_competition_id : string;
  session_name : string;
  voting_type : VotingType;
  requires_authentication : bool;
  session_status : string;
  votes_per_voter : Z;
  vs_created_by : string;
  vs_created_at : Z;
  start_time : option Z;
  end_time : option Z;
  prevent_vote_changing : option bool
}.

(** [VotingSession.__init__]: neither the window nor
    [prevent_vote_changing] is assigned. *)
Definition VotingSession_init (uuid competition name : string)
    (vt : VotingType) (created_by : string) (now : Z) : VotingSession :=
  {| session_id := uuid; vs_competition_id := competition;
     session_name := name; voting_type := vt;
     requires_authentication := true; session_status := "draft";
     votes_per_voter := 1; vs_created_by := created_by; vs_created_at := now;
     start_time := None; end_time := None; prevent_vote_changing := None |}.

(* ===================================================================== *)
(** ** The storage collaborator *)
(* ===================================================================== *)

(** What the queries return. Each field stands for a method whose body in
    the sources is a SQL statement and a placeholder ([pass] or a constant);
    [Competition.get_by_id] and [Team.get_by_id] are called by the service
    layer and have no body in the sources at all. *)
Record Storage : Type := mkStorage {
  get_registration_for_competition : User -> string -> option Registration;
  has_required_files : Submission -> bool;
  get_round_info : Submission -> option RoundInfo;
  has_user_voted : VotingSession -> string -> bool;
  Competition_get_by_id : string -> option Competition;
  Team_get_by_id : string -> option Team
}.

(** The placeholders as the sources have them: no registration, files
    always complete, no round, nobody has voted; the two lookups by id are
    given. *)
Definition placeholder_storage (competitions : string -> option Competition)
    (teams : string -> option Team) : Storage :=
  {| get_registration_for_competition := fun _ _ => None;
     has_required_files := fun _ => true;
     get_round_info := fun _ => None;
     has_user_voted := fun _ _ => false;
     Competition_get_by_id := competitions;
     Team_get_by_id := teams |}.

(* ===================================================================== *)
(** ** Eligibility *)
(* ===================================================================== *)

(** [User.can_participate_in_competition]. *)
Definition can_participate_in_competition (st : Storage) (u : User)
    (c : Competition) : bool * string :=
  if negb (bool_decide (account_status u = ACTIVE)) then
    (false, "Account not active"%string)
  else if negb (email_verified u) then
    (false, "Email not verified"%string)
  else
    match get_registration_for_competition st u (competition_id c) with
    | Some _ => (false, "Already registered for this competition"%string)
    | None => (true, "Can participate"%string)
    end.

(** [Competition.can_user_register]. *)
Definition can_user_register (st : Storage) (c : Competition) (u : User)
    (now : Z) : result (bool * string) :=
  open ← is_registration_open c now;
  if negb open then Ok (false, "Registration is not open"%string)
  else Ok (can_participate_in_competition st u c).

(* ===================================================================== *)
(** ** Submission lifecycle *)
(* ===================================================================== *)

(** [Submission.can_submit]; the clock is read only when the round has a
    deadline. *)
Definition can_submit (st : Storage) (s : Submission) (now : Z)
    : bool * string :=
  if negb (bool_decide (submission_status s = DRAFT)) then
    (false, "Submission already finalized"%string)
  else if negb (has_required_files st s) then
    (false, "Missing required files"%string)
  else
    match get_round_info st s with
    | Some round_info =>
        match submission_deadline round_info with
        | Some deadline =>
            if now >? deadline then
              (false, "Submission deadline has passed"%string)
            else (true, "Can submit"%string)
        | None => (true, "Can submit"%string)
        end
    | None => (true, "Can submit"%string)
    end.

(** [Submission.submit]: the outcome and the submission as it is left.
    [now_check] is the clock read of [can_submit], [now_stamp] the later one
    that stamps [submitted_at]. *)
Definition submit (st : Storage) (s : Submission) (now_check now_stamp : Z)
    : result unit * Submission :=
  let '(can, reason) := can_submit st s now_check in
  if negb can then (Raise (ValueError reason), s)
  else (Ok tt,
        {| submission_id := submission_id s;
           sub_competition_id := sub_competition_id s;
           round_id := round_id s; registration_id := registration_id s;
           title := title s; description := description s;
           version := version s; submission_status := SUBMITTED;
           sub_created_at := sub_created_at s;
           submitted_at := Some now_stamp; is_final := Some true |}).

(* ===================================================================== *)
(** ** Voting eligibility *)
(* ===================================================================== *)

(** [VotingSession.is_active]. *)
Definition is_active (s : VotingSession) (now : Z) : result bool :=
  if negb (String.eqb (session_status s) "active") then Ok false
  else
    match start_time s with
    | None => Raise (AttributeError "start_time")
    | Some st =>
        if st <=? now then
          match end_time s with
          | None => Raise (AttributeError "end_time")
          | Some et => Ok (now <=? et)
          end
        else Ok false
    end.

(** [hasattr(self, 'prevent_vote_changing') and self.prevent_vote_changing]. *)
Definition vote_changing_prevented (s : VotingSession) : bool :=
  match prevent_vote_changing s with
  | Some b => b
  | None => false
  end.

(** [VotingSession.can_user_vote]. *)
Definition can_user_vote (st : Storage) (s : VotingSession) (u : User)
    (now : Z) : result (bool * string) :=
  active ← is_active s now;
  if negb active then Ok (false, "Voting session is not active"%string)
  else if requires_authentication s && negb (email_verified u) then
    Ok (false, "Email verification required"%string)
  else if vote_changing_prevented s && has_user_voted st s (user_id u) then
    Ok (false, "Already voted in this session"%string)
  else Ok (true, "Can vote"%string).

(* ===================================================================== *)
(** ** Service layer *)
(* ===================================================================== *)

(** Truth value of an optional identifier: [None] and the empty string are
    false. *)
Definition given (team : option string) : option string :=
  match team with
  | Some t => if String.eqb t "" then None else Some t
  | None => None
  end.

(** [CompetitionService.register_for_competition]. *)
Definition register_for_competition (st : Storage) (competition_id : string)
    (user : User) (team : option string) : result Registration :=
  match Competition_get_by_id st competition_id with
  | None => Raise (ValueError "Competition not found")
  | Some competition =>
      match given team with
      | Some tid =>
          match Team_get_by_id st tid with
          | None => Raise (ValueError "Team not found")
          | Some t =>
              if negb (String.eqb (captain_id t) (user_id user)) then
                Raise (ValueError "Only team captain can register team")
              else register_participant competition tid "team" None
          end
      | None =>
          register_participant competition (user_id user) "individual" None
      end
  end.

(** Modelled from the spec: the class [JudgeAssignment] is constructed by
    [JudgingService.assign_judges_to_competition] but is declared nowhere in
    the sources; the record holds the three keyword arguments of that call
    (competition, judge, assignment method). *)
Record JudgeAssignment : Type := mkJudgeAssignment {
  ja_competition_id : string;
  ja_judge_id : string;
  assignment_method : string
}.

(** [JudgingService.assign_judges_to_competition]: the loop appends one
    assignment per element of [judge_ids] to a list that starts empty. *)
Definition assign_judges_to_competition (competition_id : string)
    (judge_ids : list string) (method : string) : list JudgeAssignment :=
  fold_left
    (fun assignments judge_id =>
       assignments ++ [ {| ja_competition_id := competition_id;
                           ja_judge_id := judge_id;
                           assignment_method := method |} ])
    judge_ids [].

(** The assignments of a list that are for one (competition, judge) pair. *)
Definition assignments_for (competition_id judge_id : string)
    (l : list JudgeAssignment) : list JudgeAssignment :=
  filter (fun a => ja_competition_id a = competition_id
                   /\ ja_judge_id a = judge_id) l.

(* ===================================================================== *)
(** ** The rapid-vote stage of the ML pipeline *)
(* ===================================================================== *)

Module Pipeline.

(** The columns of the data frame that the rapid-vote stage reads, one
    record per row in frame order. The IP-frequency columns, which
    [detect_anomalies] adds first from other columns, are left out: the
    rapid-vote columns do not read them. A timestamp is a count of
    nanoseconds held in 64 bits (pandas [datetime64[ns]]); [None] is [NaT],
    the value a submission without votes gets from the LEFT JOIN. *)
Record Row : Type := mkRow {
  submission_id : Z;
  vote_timestamp : option Z
}.

Definition NANOSECONDS_PER_SECOND : Z := 1000000000.

(** The ends of the 64-bit range; the lowest value is the bit pattern of
    [NaT]. *)
Definition INT64_MIN : Z := -9223372036854775808.
Definition INT64_MAX : Z := 9223372036854775807.

(** A pandas call returns its value or raises [OverflowError]. *)
Inductive outcome (A : Type) : Type :=
  | Returns (a : A)
  | OverflowError.

Arguments Returns {A} a.
Arguments OverflowError {A}.

(** [groupby('submission_id')['vote_timestamp'].shift(1)]: for each row the
    timestamp of the previous row of its own group, [NaT] for the first row
    of a group. [last] maps a submission to the timestamp of its most
    recent row so far. *)
Fixpoint groupby_shift (last : gmap Z (option Z)) (df : list Row)
    : list (option Z) :=
  match df with
  | [] => []
  | r :: rest =>
      default None (last !! submission_id r)
      :: groupby_shift (<[submission_id r := vote_timestamp r]> last) rest
  end.

(** One element of the subtraction of two timestamp columns: [NaT] when
    either side is [NaT], [OverflowError] when the difference leaves the
    64-bit range; a difference that is the bit pattern of [NaT] reads as
    [NaT]. *)
Definition sub_timestamps (t previous : option Z) : outcome (option Z) :=
  match t, previous with
  | Some t, Some p =>
      let d := t - p in
      if (d <? INT64_MIN) || (INT64_MAX <? d) then OverflowError
      else if d =? INT64_MIN then Returns None
      else Returns (Some d)
  | _, _ => Returns None
  end.

(** The subtraction of two columns, element by element; one overflow makes
    the whole subtraction raise. *)
Fixpoint sub_columns (obj shifted : list (option Z))
    : outcome (list (option Z)) :=
  match obj, shifted with
  | t :: obj', p :: shifted' =>
      match sub_timestamps t p with
      | OverflowError => OverflowError
      | Returns d =>
          match sub_columns obj' shifted' with
          | OverflowError => OverflowError
          | Returns ds => Returns (d :: ds)
          end
      end
  | _, _ => Returns []
  end.

(** [df.groupby('submission_id')['vote_timestamp'].diff()]: the column
    minus its shift within each group. [last] is empty for a whole
    frame. *)
Definition groupby_diff (last : gmap Z (option Z)) (df : list Row)
    : outcome (list (option Z)) :=
  sub_columns (map vote_timestamp df) (groupby_shift last df).

(** [np.where(df['vote_time_diff'] < 5, 1, 0)] on the difference in
    seconds; a comparison with [NaN] is false. The difference is kept in
    nanoseconds, so the test is against five seconds' worth of them. *)
Definition rapid (vote_time_diff : option Z) : Z :=
  match vote_time_diff with
  | Some d => if d <? 5 * NANOSECONDS_PER_SECOND then 1 else 0
  | None => 0
  end.

(** A row with the two columns the stage adds. *)
Record Scored : Type := mkScored {
  row : Row;
  vote_time_diff : option Z;
  rapid_vote_anomaly : Z
}.

(** The frame with its two new columns, given the differences. *)
Definition with_columns (df : list Row) (diffs : list (option Z))
    : list Scored :=
  zip_with (fun r d => {| row := r; vote_time_diff := d;
                          rapid_vote_anomaly := rapid d |})
           df diffs.

(** The stage started from a map [last]; a whole frame starts from the
    empty one. *)
Definition detect_from (last : gmap Z (option Z)) (df : list Row)
    : outcome (list Scored) :=
  match groupby_diff last df with
  | OverflowError => OverflowError
  | Returns diffs => Returns (with_columns df diffs)
  end.

(** [NestFestMLPipeline.detect_anomalies], rapid-vote columns. *)
Definition detect_anomalies (df : list Row) : outcome (list Scored) :=
  detect_from ∅ df.

(** A vote of a submission at a time given in seconds. *)
Definition vote_at (submission seconds : Z) : Row :=
  {| submission_id := submission;
     vote_timestamp := Some (seconds * NANOSECONDS_PER_SECOND) |}.

(** The map from a submission to its latest timestamp after a run of rows. *)
Definition seen (last : gmap Z (option Z)) (df : list Row)
    : gmap Z (option Z) :=
  fold_left (fun m r => <[submission_id r := vote_timestamp r]> m) df last.

(** The flag of the row at position [i] of a scored frame. *)
Definition flag_at (scored : list Scored) (i : nat) : option Z :=
  rapid_vote_anomaly <$> scored !! i.

(** [p] and [v] are consecutive votes of one submission in the frame: [v]
    comes after [p] with only votes of other submissions in between. *)
Definition consecutive (df : list Row) (p v : Row) : Prop :=
  exists pre mid post,
    df = (pre ++ p :: mid ++ v :: post)%list
    /\ submission_id p = submission_id v
    /\ Forall (fun r => submission_id r <> submission_id v) mid.

(** Every difference between consecutive votes of one submission is a
    64-bit time difference: inside the range and not the pattern of
    [NaT]. *)
Definition frame_fits (df : list Row) : Prop :=
  forall (p v : Row) (t1 t2 : Z),
    consecutive df p v ->
    vote_timestamp p = Some t1 ->
    vote_timestamp v = Some t2 ->
    INT64_MIN < t2 - t1 <= INT64_MAX.

(** All timestamps lie less than 2^62 nanoseconds from the epoch, about
    146 years either way. *)
Definition timestamps_near_epoch (df : list Row) : Prop :=
  Forall (fun r => match vote_timestamp r with
                   | Some t => - 2 ^ 62 <= t < 2 ^ 62
                   | None => True
                   end) df.

End Pipeline.

(* ===================================================================== *)
(** ** Specification predicates and example values *)
(* ===================================================================== *)

Local Open Scope string_scope.

(** Concrete values used by the examples below. *)
Definition demo_competition : Competition :=
  Competition_init "comp-1" "AI Innovation Challenge 2024"
    "ai-innovation-challenge-2024" "tech-001" "user-1" 0.

Definition demo_user : User :=
  User_init "user-1" "student@university.edu" "John" "Doe" 0.

(** A storage that already holds a registration of "user-1" for "comp-1". *)
Definition duplicate_storage : Storage :=
  {| get_registration_for_competition := fun u cid =>
       if String.eqb (user_id u) "user-1" && String.eqb cid "comp-1"
       then Some (mkRegistration "comp-1" "individual" "user-1" ∅)
       else None;
     has_required_files := fun _ => true;
     get_round_info := fun _ => None;
     has_user_voted := fun _ _ => false;
     Competition_get_by_id := fun _ => Some demo_competition;
     Team_get_by_id := fun _ => None |}.

(** The participant types a competition type admits: an individual unless
    the competition is team-only, a team unless it is individual-only. *)
Definition participant_type_allowed (ty : CompetitionType) (ptype : string)
    : Prop :=
  (ptype = "individual" /\ ty <> TEAM) \/ (ptype = "team" /\ ty <> INDIVIDUAL).

(** The current time is not past the deadline of the submission's round; a
    submission without a round, or a round without a deadline, has none to
    pass. *)
Definition deadline_not_passed (st : Storage) (s : Submission) (now : Z)
    : Prop :=
  match get_round_info st s with
  | Some round_info =>
      match submission_deadline round_info with
      | Some deadline => now <= deadline
      | None => True
      end
  | None => True
  end.

(** A round whose deadline is at time 500, in a storage where files are
    complete. *)
Definition demo_storage : Storage :=
  {| get_registration_for_competition := fun _ _ => None;
     has_required_files := fun _ => true;
     get_round_info := fun _ => Some (mkRoundInfo "Round 1" (Some 500) None);
     has_user_voted := fun _ _ => true;
     Competition_get_by_id := fun _ => Some demo_competition;
     Team_get_by_id := fun _ => None |}.

Definition demo_submission : Submission :=
  Submission_init "sub-1" "comp-1" "round-001" "reg-1"
    "Revolutionary AI Solution" 0.

(** Registration is open: the competition is published and the time lies
    within its registration window. *)
Definition registration_open_at (c : Competition) (now : Z) : Prop :=
  competition_status c = CS_PUBLISHED
  /\ exists rs re : Z,
       registration_start c = Some rs /\ registration_end c = Some re
       /\ rs <= now <= re.

(** The competition has its registration window assigned. *)
Definition registration_window_assigned (c : Competition) : Prop :=
  is_Some (registration_start c) /\ is_Some (registration_end c).

(** A published competition whose registration window is [100, 200]. *)
Definition demo_published : Competition :=
  {| competition_id := "comp-2"; competition_name := "Open Challenge";
     slug := "open-challenge"; category_id := "tech-001";
     competition_type := HYBRID; competition_status := CS_PUBLISHED;
     max_file_size_mb := 100; competition_created_by := "user-1";
     competition_created_at := 0;
     registration_start := Some 100; registration_end := Some 200;
     competition_start := Some 300; competition_end := Some 400 |}.

Definition demo_verified_user : User :=
  {| user_id := "user-2"; email := "ada@university.edu"; first_name := "Ada";
     last_name := "Byron"; account_status := ACTIVE; email_verified := true;
     user_created_at := 0 |}.

(** The session is active: its status is "active" and the time lies within
    [start_time, end_time]. *)
Definition session_active (s : VotingSession) (now : Z) : Prop :=
  session_status s = "active"
  /\ exists b e : Z,
       start_time s = Some b /\ end_time s = Some e /\ b <= now <= e.

(** The session has its voting window assigned. *)
Definition voting_window_assigned (s : VotingSession) : Prop :=
  is_Some (start_time s) /\ is_Some (end_time s).

(** A session opened on [100, 200] with vote changing prevented. *)
Definition demo_session : VotingSession :=
  {| session_id := "vs-1"; vs_competition_id := "comp-1";
     session_name := "Finals"; voting_type := TRADITIONAL;
     requires_authentication := true; session_status := "active";
     votes_per_voter := 1; vs_created_by := "user-1"; vs_created_at := 0;
     start_time := Some 100; end_time := Some 200;
     prevent_vote_changing := Some true |}.

(** The assignments a caller makes to open a session: status and window. *)
Definition opened (s : VotingSession) (b e : Z) : VotingSession :=
  {| session_id := session_id s; vs_competition_id := vs_competition_id s;
     session_name := session_name s; voting_type := voting_type s;
     requires_authentication := requires_authentication s;
     session_status := "active"; votes_per_voter := votes_per_voter s;
     vs_created_by := vs_created_by s; vs_created_at := vs_created_at s;
     start_time := Some b; end_time := Some e;
     prevent_vote_changing := prevent_vote_changing s |}.

(** A storage with one team, captained by "user-1". *)
Definition demo_team : Team :=
  Team_init "team-1" "AI Innovators" "user-1" 4 "ABCD1234" 0.

Definition demo_team_storage : Storage :=
  placeholder_storage (fun _ => Some demo_competition)
    (fun tid => if String.eqb tid "team-1" then Some demo_team else None).

(** Votes on submission 7 at 0, 3 and 13 seconds, with a vote on
    submission 8 in between. *)
Definition demo_votes : list Pipeline.Row :=
  [Pipeline.vote_at 7 0; Pipeline.vote_at 8 1; Pipeline.vote_at 7 3;
   Pipeline.vote_at 7 13].

(* ===================================================================== *)
(** ** Further models: slug, invite code, invitations, creation *)
(* ===================================================================== *)

(** *** Characters, as Python's [str] methods and [re] classes read ASCII *)

Definition char_code (c : ascii) : N := N_of_ascii c.

Definition is_digit (c : ascii) : bool :=
  ((48 <=? char_code c) && (char_code c <=? 57))%N.

Definition is_lower (c : ascii) : bool :=
  ((97 <=? char_code c) && (char_code c <=? 122))%N.

Definition is_upper (c : ascii) : bool :=
  ((65 <=? char_code c) && (char_code c <=? 90))%N.

(** [\w] on an ASCII character: a letter, a digit or the underscore. *)
Definition is_word (c : ascii) : bool :=
  is_digit c || is_lower c || is_upper c || (char_code c =? 95)%N.

(** [\s] on an ASCII character: tab to carriage return, the four
    separators 28 to 31, and the space. *)
Definition is_space (c : ascii) : bool :=
  (((9 <=? char_code c) && (char_code c <=? 13))
   || ((28 <=? char_code c) && (char_code c <=? 32)))%N.

Definition is_hyphen (c : ascii) : bool := (char_code c =? 45)%N.

(** The characters below 128, on which the classes above are Python's. *)
Definition is_ascii (c : ascii) : bool := (char_code c <? 128)%N.

(** [str.lower] on one ASCII character. *)
Definition lower_char (c : ascii) : ascii :=
  if is_upper c then ascii_of_N (char_code c + 32) else c.

(** The class [[\s_-]] of the second substitution. *)
Definition is_separator (c : ascii) : bool :=
  is_space c || (char_code c =? 95)%N || is_hyphen c.

(** The complement of the class [[^\w\s-]] of the first substitution. *)
Definition is_kept (c : ascii) : bool :=
  is_word c || is_space c || is_hyphen c.

(** [re.sub(r'[\s_-]+', '-', s)]: every maximal run of separators becomes
    one hyphen. [in_run] tells that the previous character was one. *)
Fixpoint collapse_separators (in_run : bool) (s : list ascii) : list ascii :=
  match s with
  | [] => []
  | c :: rest =>
      if is_separator c then
        if in_run then collapse_separators true rest
        else "-"%char :: collapse_separators true rest
      else c :: collapse_separators false rest
  end.

(** [s.lstrip('-')]. *)
Fixpoint lstrip_hyphens (s : list ascii) : list ascii :=
  match s with
  | [] => []
  | c :: rest => if is_hyphen c then lstrip_hyphens rest else s
  end.

(** [s.rstrip('-')]: a hyphen is dropped when nothing is left after it. *)
Fixpoint rstrip_hyphens (s : list ascii) : list ascii :=
  match s with
  | [] => []
  | c :: rest =>
      match rstrip_hyphens rest with
      | [] => if is_hyphen c then [] else [c]
      | kept => c :: kept
      end
  end.

(** [s.strip('-')]. *)
Definition strip_hyphens (s : list ascii) : list ascii :=
  lstrip_hyphens (rstrip_hyphens s).

(** [Competition._generate_slug] on the characters of the name. *)
Definition slug_chars (name : list ascii) : list ascii :=
  strip_hyphens
    (collapse_separators false
       (filter (fun c => is_kept c = true) (map lower_char name))).

(** [Competition._generate_slug]. *)
Definition _generate_slug (name : string) : string :=
  string_of_list_ascii (slug_chars (list_ascii_of_string name)).

(** A slug character: a lower-case letter, a digit or the hyphen. *)
Definition is_slug_char (c : ascii) : bool :=
  is_lower c || is_digit c || is_hyphen c.

(** No two hyphens in a row. *)
Fixpoint no_double_hyphen (s : list ascii) : Prop :=
  match s with
  | c :: (d :: _) as rest =>
      ~ (is_hyphen c = true /\ is_hyphen d = true) /\ no_double_hyphen rest
  | _ => True
  end.

Definition starts_with_hyphen (s : list ascii) : bool :=
  match s with
  | c :: _ => is_hyphen c
  | [] => false
  end.

Fixpoint ends_with_hyphen (s : list ascii) : bool :=
  match s with
  | [] => false
  | [c] => is_hyphen c
  | _ :: rest => ends_with_hyphen rest
  end.

(** A well-formed slug: slug characters only, hyphens single and inside. *)
Definition clean_slug (s : list ascii) : Prop :=
  Forall (fun c => is_slug_char c = true) s
  /\ no_double_hyphen s
  /\ starts_with_hyphen s = false
  /\ ends_with_hyphen s = false.

(** A letter or a digit. *)
Definition is_alnum (c : ascii) : bool :=
  is_digit c || is_lower c || is_upper c.

(** A string of ASCII characters only. *)
Definition ascii_only (s : string) : Prop :=
  Forall (fun c => is_ascii c = true) (list_ascii_of_string s).

(** *** Invite codes *)

(** [string.ascii_uppercase + string.digits]. *)
Definition invite_alphabet : list ascii :=
  list_ascii_of_string "ABCDEFGHIJKLMNOPQRSTUVWXYZ0123456789".

(** [secrets.choice(seq)] is [seq[randbelow(len(seq))]]; the random source
    gives the draw of each call as a natural number, read below the bound. *)
Definition choice (seq : list ascii) (draw : nat) : ascii :=
  nth (draw mod length seq) seq "A"%char.

(** [Team._generate_invite_code]: eight choices, joined. [draws i] is the
    random number of the [i]-th call. *)
Definition _generate_invite_code (draws : nat -> nat) : string :=
  string_of_list_ascii
    (map (fun i => choice invite_alphabet (draws i)) (seq 0 8)).

(** *** Invitations *)

(** Modelled from the spec: the class [TeamInvitation] is constructed by
    [Team.invite_member] but is declared nowhere in the sources; the record
    holds the five keyword arguments of that call (team reference, invitee,
    inviter, type and message). *)
Record TeamInvitation : Type := mkTeamInvitation {
  inv_team_id : string;
  inv_user_id : string;
  invited_by : string;
  inv_type : string;
  inv_message : string
}.

(** [Team.invite_member]. *)
Definition invite_member (t : Team) (user invited_by message : string)
    : result TeamInvitation :=
  let '(can_add, reason) := can_add_member t in
  if negb can_add then Raise (ValueError reason)
  else Ok {| inv_team_id := team_id t; inv_user_id := user;
             invited_by := invited_by; inv_type := "invitation";
             inv_message := message |}.

(** *** Creating a competition *)

(** The dictionary [data] of [create_competition], read at the keys the
    method uses; a key that is not in the dictionary is [None]. The values
    have the types the models give them: strings, a competition type,
    datetimes. *)
Record CompetitionData : Type := mkCompetitionData {
  data_name : option string;
  data_category_id : option string;
  data_description : option string;
  data_type : option CompetitionType;
  data_registration_start : option Z;
  data_registration_end : option Z;
  data_competition_start : option Z;
  data_competition_end : option Z
}.

(** The list the validation loop goes through, in its order. *)
Definition required_fields : list string :=
  ["name"; "category_id"; "registration_start"; "registration_end";
   "competition_start"; "competition_end"].

(** [field in data], for the keys of [required_fields]. *)
Definition field_in (data : CompetitionData) (field : string) : bool :=
  if String.eqb field "name" then bool_decide (is_Some (data_name data))
  else if String.eqb field "category_id" then
    bool_decide (is_Some (data_category_id data))
  else if String.eqb field "registration_start" then
    bool_decide (is_Some (data_registration_start data))
  else if String.eqb field "registration_end" then
    bool_decide (is_Some (data_registration_end data))
  else if String.eqb field "competition_start" then
    bool_decide (is_Some (data_competition_start data))
  else if String.eqb field "competition_end" then
    bool_decide (is_Some (data_competition_end data))
  else false.

(** One turn of the validation loop, giving the value at the key. *)
Definition require {A : Type} (value : option A) (field : string) : result A :=
  match value with
  | Some a => Ok a
  | None => Raise (ValueError ("Missing required field: " ++ field))
  end.

(** The assignments [create_competition] makes on the constructed
    competition: its type and its four windows. *)
Definition assign_type_and_windows (competition : Competition)
    (ty : CompetitionType) (rs re cs ce : Z) : Competition :=
  {| competition_id := competition_id competition;
     competition_name := competition_name competition;
     slug := slug competition;
     category_id := category_id competition;
     competition_type := ty;
     competition_status := competition_status competition;
     max_file_size_mb := max_file_size_mb competition;
     competition_created_by := competition_created_by competition;
     competition_created_at := competition_created_at competition;
     registration_start := Some rs; registration_end := Some re;
     competition_start := Some cs; competition_end := Some ce |}.

(** [CompetitionService.create_competition]: the six required keys are
    checked in the order of [required_fields], then the competition is
    constructed and its type and four windows are assigned. The attribute
    [description] is descriptive only and, like [rules] and
    [judging_criteria], has no field in [Competition]. *)
Definition create_competition (uuid slug : string) (data : CompetitionData)
    (created_by : string) (now : Z) : result Competition :=
  name ← require (data_name data) "name";
  category ← require (data_category_id data) "category_id";
  rs ← require (data_registration_start data) "registration_start";
  re ← require (data_registration_end data) "registration_end";
  cs ← require (data_competition_start data) "competition_start";
  ce ← require (data_competition_end data) "competition_end";
  Ok (assign_type_and_windows
        (Competition_init uuid name slug category created_by now)
        (default INDIVIDUAL (data_type data)) rs re cs ce).

(** The dictionary of the usage example: a team competition whose
    registration runs over [0, 30] and which itself runs over [35, 90]. *)
Definition demo_data : CompetitionData :=
  {| data_name := Some "AI Innovation Challenge 2024";
     data_category_id := Some "tech-001";
     data_description := Some "Build innovative AI solutions";
     data_type := Some TEAM;
     data_registration_start := Some 0; data_registration_end := Some 30;
     data_competition_start := Some 35; data_competition_end := Some 90 |}.

(** Submissions are open: the competition is active and the time lies
    within its competition window. *)
Definition submission_open_at (c : Competition) (now : Z) : Prop :=
  competition_status c = CS_ACTIVE
  /\ exists cs ce : Z,
       competition_start c = Some cs /\ competition_end c = Some ce
       /\ cs <= now <= ce.

(** A session set to "active" with no window assigned, and a competition
    published with no window assigned. *)
Definition demo_unscheduled_session : VotingSession :=
  {| session_id := "vs-3"; vs_competition_id := "comp-1";
     session_name := "Semi-finals"; voting_type := APPROVAL;
     requires_authentication := true; session_status := "active";
     votes_per_voter := 1; vs_created_by := "user-1"; vs_created_at := 0;
     start_time := None; end_time := None; prevent_vote_changing := None |}.

Definition demo_unscheduled_competition : Competition :=
  {| competition_id := "comp-4"; competition_name := "Unscheduled";
     slug := "unscheduled"; category_id := "tech-001";
     competition_type := INDIVIDUAL; competition_status := CS_PUBLISHED;
     max_file_size_mb := 100; competition_created_by := "user-1";
     competition_created_at := 0;
     registration_start := None; registration_end := None;
     competition_start := None; competition_end := None |}.

(** The submission as a successful [submit] leaves it: submitted, stamped
    and final, every other field kept. *)
Definition finalised (s : Submission) (stamp : Z) : Submission :=
  {| submission_id := submission_id s;
     sub_competition_id := sub_competition_id s;
     round_id := round_id s; registration_id := registration_id s;
     title := title s; description := description s;
     version := version s; submission_status := SUBMITTED;
     sub_created_at := sub_created_at s;
     submitted_at := Some stamp; is_final := Some true |}.

(* ===================================================================== *)
(** * Properties *)
(* ===================================================================== *)

(** ** Registration: participant type against competition type *)

Lemma validate_registration_allowed c pid ptype :
  participant_type_allowed (competition_type c) ptype ->
  _validate_registration c pid ptype = (true, "Registration valid").
Proof.
  intros [[-> Hty] | [-> Hty]]; unfold _validate_registration; simpl;
    destruct (competition_type c); try congruence; reflexivity.
Qed.

Lemma validate_registration_refused c pid ptype :
  ~ participant_type_allowed (competition_type c) ptype ->
  exists reason,
    _validate_registration c pid ptype = (false, reason)
    /\ (reason = "Invalid participant type"
        \/ reason = "Individual registration not allowed for team competition"
        \/ reason = "Team registration not allowed for individual competition").
Proof.
  intros Hno. unfold _validate_registration.
  destruct (String.eqb_spec ptype "individual") as [-> | Hi].
  - simpl. destruct (competition_type c); simpl.
    + exfalso. apply Hno. left. split; congruence.
    + eexists. split; [reflexivity | tauto].
    + exfalso. apply Hno. left. split; congruence.
  - destruct (String.eqb_spec ptype "team") as [-> | Ht].
    + simpl. destruct (competition_type c); simpl.
      * eexists. split; [reflexivity | tauto].
      * exfalso. apply Hno. right. split; congruence.
      * exfalso. apply Hno. right. split; congruence.
    + simpl. eexists. split; [reflexivity | tauto].
Qed.

(** C1, as stated, fails: a team participant registered into an
    individual-only competition is not refused with the reason
    "Individual registration not allowed for team competition". *)
Lemma team_into_individual_reason_differs :
  ~ (forall (c : Competition) (pid : string)
            (data : option (gmap string string)),
       competition_type c = INDIVIDUAL ->
       register_participant c pid "team" data
       = Raise (ValueError
           "Individual registration not allowed for team competition")).
Proof.
  intros H.
  specialize (H demo_competition "team-1" None eq_refl).
  vm_compute in H. discriminate H.
Qed.

(** C1 (amended): by competition type. Individual-only: a team participant
    is refused with "Team registration not allowed for individual
    competition" and an individual is registered. Team-only: an individual
    is refused with "Individual registration not allowed for team
    competition" and a team is registered. Hybrid: both are registered. *)
Theorem register_participant_by_competition_type :
  forall (c : Competition) (pid : string) (data : option (gmap string string)),
    let registered ptype :=
      Ok (mkRegistration (competition_id c) ptype pid (default ∅ data)) in
    match competition_type c with
    | INDIVIDUAL =>
        register_participant c pid "team" data
        = Raise (ValueError
            "Team registration not allowed for individual competition")
        /\ register_participant c pid "individual" data
           = registered "individual"
    | TEAM =>
        register_participant c pid "individual" data
        = Raise (ValueError
            "Individual registration not allowed for team competition")
        /\ register_participant c pid "team" data = registered "team"
    | HYBRID =>
        register_participant c pid "individual" data = registered "individual"
        /\ register_participant c pid "team" data = registered "team"
    end.
Proof.
  intros c pid data registered. subst registered.
  unfold register_participant, _validate_registration.
  destruct (competition_type c); simpl; split; reflexivity.
Qed.

(** ** Registration: what is validated before a Registration is created *)

(** C2, as stated, fails: it is not so that [register_participant] raises
    a validation error whenever registration is closed and a Registration
    of the participant for the competition is already stored. For a draft
    competition and a stored registration of "user-1", a Registration is
    created all the same. *)
Lemma register_participant_ignores_window_and_duplicates :
  ~ (forall (st : Storage) (c : Competition) (u : User) (now : Z)
            (data : option (gmap string string)),
       is_registration_open c now = Ok false ->
       is_Some (get_registration_for_competition st u (competition_id c)) ->
       exists reason,
         register_participant c (user_id u) "individual" data
         = Raise (ValueError reason)).
Proof.
  intros H.
  destruct (H duplicate_storage demo_competition demo_user 100 None)
    as (reason & Hr).
  - reflexivity.
  - eexists. reflexivity.
  - vm_compute in Hr. discriminate Hr.
Qed.

(** C2 (amended): [register_participant] validates the participant type
    only. When the type is one the competition admits, it creates the
    Registration of the given competition, type, participant and data,
    whatever the registration window and the stored registrations are.
    Otherwise it raises a [ValueError] carrying the reason that
    [_validate_registration] gives, one of the three reasons of that
    method, and no Registration is created. *)
Theorem register_participant_validates_type_only :
  forall (c : Competition) (pid ptype : string)
         (data : option (gmap string string)),
    (participant_type_allowed (competition_type c) ptype ->
       register_participant c pid ptype data
       = Ok (mkRegistration (competition_id c) ptype pid (default ∅ data)))
    /\ (~ participant_type_allowed (competition_type c) ptype ->
        exists reason,
          register_participant c pid ptype data = Raise (ValueError reason)
          /\ _validate_registration c pid ptype = (false, reason)
          /\ (reason = "Invalid participant type"
              \/ reason
                 = "Individual registration not allowed for team competition"
              \/ reason
                 = "Team registration not allowed for individual competition")).
Proof.
  intros c pid ptype data. split.
  - intros Hok. unfold register_participant.
    rewrite (validate_registration_allowed c pid ptype Hok). reflexivity.
  - intros Hno.
    destruct (validate_registration_refused c pid ptype Hno)
      as (reason & Hv & Hr).
    exists reason. unfold register_participant. rewrite Hv. simpl. tauto.
Qed.

(** The theorem at an individual registered into an individual-only
    competition and at an unknown participant type. *)
Lemma register_participant_validates_type_only_witness :
  register_participant demo_competition "user-1" "individual" None
  = Ok (mkRegistration "comp-1" "individual" "user-1" ∅)
  /\ exists reason,
       register_participant demo_competition "user-1" "judge" None
       = Raise (ValueError reason).
Proof.
  split.
  - apply (proj1 (register_participant_validates_type_only
                    demo_competition "user-1" "individual" None)).
    left. split; [reflexivity | discriminate].
  - destruct (proj2 (register_participant_validates_type_only
                       demo_competition "user-1" "judge" None))
      as (reason & Hr & _).
    + intros [[H _] | [H _]]; discriminate H.
    + exists reason. exact Hr.
Defined.

(** ** Team capacity invariant *)

Lemma accept_member_keeps_invariant (t t' : Team) :
  team_invariant t -> accept_member t = Ok t' -> team_invariant t'.
Proof.
  unfold team_invariant, accept_member, can_add_member.
  intros Hinv.
  destruct (negb (String.eqb (team_status t) "forming")); simpl;
    [discriminate |].
  destruct (current_member_count t >=? max_members t) eqn:Hfull; simpl;
    [discriminate |].
  intros [= <-]. simpl. lia.
Qed.

(** C8, as stated, fails: the constructor accepts any [max_members], and
    with [max_members = 0] the new team has count 1 above its capacity. *)
Lemma team_init_breaks_invariant :
  ~ (forall (uuid name captain : string) (max_members : Z) (code : string)
            (now : Z),
       team_invariant (Team_init uuid name captain max_members code now)).
Proof.
  intros H.
  specialize (H "team-1" "AI Innovators" "user-1" 0 "ABCD1234" 0).
  unfold team_invariant in H. simpl in H. lia.
Qed.

(** C8 (amended): for a team constructed with [max_members >= 1], the
    invariant [1 <= current_member_count <= max_members] holds for the team
    the constructor returns and after every sequence of member additions
    gated by [can_add_member]. *)
Theorem team_invariant_holds :
  forall (uuid name captain : string) (max_members : Z) (code : string)
         (now : Z) (t : Team),
    1 <= max_members ->
    team_reaches (Team_init uuid name captain max_members code now) t ->
    team_invariant t.
Proof.
  intros uuid name captain mm code now t Hmm Hreach.
  induction Hreach as [| t t' _ IH Hstep].
  - unfold team_invariant. simpl. lia.
  - exact (accept_member_keeps_invariant t t' IH Hstep).
Qed.

(** The theorem at a team of capacity 4 after one accepted member. *)
Lemma team_invariant_holds_witness :
  team_invariant
    {| team_id := "team-1"; team_name := "AI Innovators";
       captain_id := "user-1"; max_members := 4; current_member_count := 2;
       team_status := "forming"; invite_code := "ABCD1234";
       team_created_at := 0 |}.
Proof.
  apply (team_invariant_holds "team-1" "AI Innovators" "user-1" 4 "ABCD1234" 0).
  - lia.
  - eapply reaches_accept; [apply reaches_start | reflexivity].
Defined.

(** ** Submission finalisation *)

Lemma can_submit_not_draft st s now :
  submission_status s <> DRAFT ->
  can_submit st s now = (false, "Submission already finalized").
Proof.
  intros Hs. unfold can_submit.
  rewrite bool_decide_eq_false_2 by exact Hs. reflexivity.
Qed.

Lemma can_submit_ready st s now :
  submission_status s = DRAFT ->
  has_required_files st s = true ->
  deadline_not_passed st s now ->
  can_submit st s now = (true, "Can submit").
Proof.
  intros Hs Hf Hd. unfold can_submit, deadline_not_passed in *.
  rewrite bool_decide_eq_true_2 by exact Hs. rewrite Hf. simpl.
  destruct (get_round_info st s) as [ri |]; [| reflexivity].
  destruct (submission_deadline ri) as [d |]; [| reflexivity].
  destruct (Z.gtb_spec now d); [lia | reflexivity].
Qed.

(** C3: a draft submission with its required files, checked at a time not
    past the round's deadline, is finalised by [submit]: the status becomes
    submitted, [submitted_at] is the time of the stamp, [is_final] is true
    and every other field is kept. A submission whose status is not draft
    makes [submit] raise "Submission already finalized" and is left as it
    was; this is what a second [submit] meets after a first one succeeded. *)
Theorem submit_finalises_once :
  forall (st : Storage) (s : Submission) (now_check now_stamp : Z),
    (submission_status s = DRAFT ->
     has_required_files st s = true ->
     deadline_not_passed st s now_check ->
     submit st s now_check now_stamp
     = (Ok tt,
        {| submission_id := submission_id s;
           sub_competition_id := sub_competition_id s;
           round_id := round_id s; registration_id := registration_id s;
           title := title s; description := description s;
           version := version s; submission_status := SUBMITTED;
           sub_created_at := sub_created_at s;
           submitted_at := Some now_stamp; is_final := Some true |}))
    /\ (submission_status s <> DRAFT ->
        submit st s now_check now_stamp
        = (Raise (ValueError "Submission already finalized"), s))
    /\ (forall (s' : Submission) (again_check again_stamp : Z),
          submit st s now_check now_stamp = (Ok tt, s') ->
          submit st s' again_check again_stamp
          = (Raise (ValueError "Submission already finalized"), s')).
Proof.
  intros st s now_check now_stamp. split; [| split].
  - intros Hs Hf Hd. unfold submit.
    rewrite (can_submit_ready st s now_check Hs Hf Hd). reflexivity.
  - intros Hs. unfold submit.
    rewrite (can_submit_not_draft st s now_check Hs). reflexivity.
  - intros s' n3 n4 Hfirst. unfold submit in Hfirst.
    destruct (can_submit st s now_check) as [can reason].
    destruct can; simpl in Hfirst; [| discriminate].
    injection Hfirst as <-.
    unfold submit. rewrite can_submit_not_draft by (simpl; discriminate).
    reflexivity.
Qed.

(** The theorem at a draft submitted at time 400 and submitted again. *)
Lemma submit_finalises_once_witness :
  exists s',
    submit demo_storage demo_submission 400 401 = (Ok tt, s')
    /\ submission_status s' = SUBMITTED
    /\ submitted_at s' = Some 401
    /\ is_final s' = Some true
    /\ submit demo_storage s' 402 403
       = (Raise (ValueError "Submission already finalized"), s').
Proof.
  destruct (submit_finalises_once demo_storage demo_submission 400 401)
    as (Hfirst & _ & Hagain).
  eexists. split; [apply Hfirst |]; [reflexivity | reflexivity | | ].
  - unfold deadline_not_passed. simpl. lia.
  - split; [reflexivity |]. split; [reflexivity |]. split; [reflexivity |].
    apply Hagain. apply Hfirst; [reflexivity | reflexivity |].
    unfold deadline_not_passed. simpl. lia.
Defined.

(** ** Eligibility: participation and registration *)

Lemma is_registration_open_true (c : Competition) (now : Z) :
  registration_open_at c now -> is_registration_open c now = Ok true.
Proof.
  intros (Hst & rs & re & Hrs & Hre & Hlo & Hhi).
  unfold is_registration_open.
  rewrite bool_decide_eq_true_2 by exact Hst. rewrite Hrs, Hre.
  destruct (Z.leb_spec rs now); [| lia].
  destruct (Z.leb_spec now re); [reflexivity | lia].
Qed.

Lemma is_registration_open_false (c : Competition) (now : Z) :
  competition_status c <> CS_PUBLISHED \/ registration_window_assigned c ->
  ~ registration_open_at c now ->
  is_registration_open c now = Ok false.
Proof.
  intros Hdef Hno. unfold is_registration_open.
  destruct (decide (competition_status c = CS_PUBLISHED)) as [Hst | Hst].
  - rewrite bool_decide_eq_true_2 by exact Hst.
    destruct Hdef as [Hne | [[rs Hrs] [re Hre]]]; [contradiction |].
    rewrite Hrs, Hre.
    destruct (Z.leb_spec rs now); [| reflexivity].
    destruct (Z.leb_spec now re); [| reflexivity].
    exfalso. apply Hno. split; [exact Hst |].
    exists rs, re. repeat split; assumption.
  - rewrite bool_decide_eq_false_2 by exact Hst. reflexivity.
Qed.

(** C4 (amended): [can_participate_in_competition] returns false, with
    one of its three reasons, exactly when the account is not active, or
    the email is unverified, or the storage holds a registration of the
    user for the competition, and returns true otherwise. For a
    competition whose registration window is assigned, or whose status is
    not published, [can_user_register] returns false with "Registration is
    not open" unless the competition is published and the time lies within
    the registration window, and then returns what
    [can_participate_in_competition] returns. *)
Theorem eligibility_gating :
  forall (st : Storage) (u : User) (c : Competition) (now : Z),
    let barred :=
      account_status u <> ACTIVE
      \/ email_verified u = false
      \/ is_Some (get_registration_for_competition st u (competition_id c)) in
    (barred ->
       exists reason,
         can_participate_in_competition st u c = (false, reason)
         /\ (reason = "Account not active" \/ reason = "Email not verified"
             \/ reason = "Already registered for this competition"))
    /\ (~ barred ->
        can_participate_in_competition st u c = (true, "Can participate"))
    /\ (competition_status c <> CS_PUBLISHED
        \/ registration_window_assigned c ->
        (~ registration_open_at c now ->
           can_user_register st c u now
           = Ok (false, "Registration is not open"))
        /\ (registration_open_at c now ->
            can_user_register st c u now
            = Ok (can_participate_in_competition st u c))).
Proof.
  intros st u c now barred. subst barred. split; [| split].
  - intros Hb. unfold can_participate_in_competition.
    destruct (decide (account_status u = ACTIVE)) as [Ha | Ha].
    + rewrite bool_decide_eq_true_2 by exact Ha. simpl.
      destruct (email_verified u) eqn:He; simpl.
      * destruct (get_registration_for_competition st u (competition_id c))
          as [r |] eqn:Hr.
        -- eexists. split; [reflexivity | tauto].
        -- exfalso. destruct Hb as [Hb | [Hb | [r Hb]]];
             [contradiction | discriminate | discriminate].
      * eexists. split; [reflexivity | tauto].
    + rewrite bool_decide_eq_false_2 by exact Ha. simpl.
      eexists. split; [reflexivity | tauto].
  - intros Hnb. unfold can_participate_in_competition.
    destruct (decide (account_status u = ACTIVE)) as [Ha | Ha]; [| tauto].
    rewrite bool_decide_eq_true_2 by exact Ha. simpl.
    destruct (email_verified u) eqn:He; [| tauto]. simpl.
    destruct (get_registration_for_competition st u (competition_id c))
      as [r |] eqn:Hr; [| reflexivity].
    exfalso. apply Hnb. right. right. exists r. reflexivity.
  - intros Hdef. split; intros Hopen; unfold can_user_register.
    + rewrite (is_registration_open_false c now Hdef Hopen). reflexivity.
    + rewrite (is_registration_open_true c now Hopen). reflexivity.
Qed.

(** The theorem at a verified user inside and outside the window, and at
    an unverified one. *)
Lemma eligibility_gating_witness :
  can_user_register demo_storage demo_published demo_verified_user 150
  = Ok (true, "Can participate")
  /\ can_user_register demo_storage demo_published demo_verified_user 250
     = Ok (false, "Registration is not open")
  /\ exists reason,
       can_participate_in_competition demo_storage demo_user demo_published
       = (false, reason).
Proof.
  assert (Hin : registration_open_at demo_published 150).
  { split; [reflexivity |]. exists 100, 200. repeat split; lia. }
  assert (Hout : ~ registration_open_at demo_published 250).
  { intros (_ & rs & re & [= <-] & [= <-] & _ & Hhi). lia. }
  assert (Hdef : competition_status demo_published <> CS_PUBLISHED
                 \/ registration_window_assigned demo_published).
  { right. split; eexists; reflexivity. }
  destruct (eligibility_gating demo_storage demo_verified_user
              demo_published 150)
    as (_ & Hfree & Hreg).
  destruct (eligibility_gating demo_storage demo_verified_user
              demo_published 250)
    as (_ & _ & Hreg').
  destruct (eligibility_gating demo_storage demo_user demo_published 150)
    as (Hbarred & _ & _).
  split; [| split].
  - rewrite (proj2 (Hreg Hdef) Hin). apply (f_equal Ok). apply Hfree.
    intros [Ha | [He | [r Hr]]]; [apply Ha; reflexivity | discriminate He
                                 | discriminate Hr].
  - exact (proj1 (Hreg' Hdef) Hout).
  - destruct Hbarred as (reason & Hr & _); [right; left; reflexivity |].
    exists reason. exact Hr.
Defined.

(** C4, as stated, fails: for a published competition whose registration
    window was never assigned, registration is not open, yet
    [can_user_register] does not return (false, "Registration is not
    open"): reading the window raises. *)
Lemma published_without_window_raises :
  ~ (forall (st : Storage) (c : Competition) (u : User) (now : Z),
       ~ registration_open_at c now ->
       can_user_register st c u now
       = Ok (false, "Registration is not open")).
Proof.
  intros H.
  specialize (H demo_storage demo_unscheduled_competition
                demo_verified_user 5).
  assert (Hclosed : ~ registration_open_at demo_unscheduled_competition 5).
  { intros (_ & rs & re & Hrs & _). discriminate Hrs. }
  specialize (H Hclosed). vm_compute in H. discriminate H.
Qed.

(** ** Voting eligibility *)

Lemma is_active_true (s : VotingSession) (now : Z) :
  session_active s now -> is_active s now = Ok true.
Proof.
  intros (Hst & b & e & Hb & He & Hlo & Hhi). unfold is_active.
  rewrite Hst, Hb, He. simpl.
  destruct (Z.leb_spec b now); [| lia].
  destruct (Z.leb_spec now e); [reflexivity | lia].
Qed.

Lemma is_active_false (s : VotingSession) (now : Z) :
  session_status s <> "active" \/ voting_window_assigned s ->
  ~ session_active s now ->
  is_active s now = Ok false.
Proof.
  intros Hdef Hno. unfold is_active.
  destruct (String.eqb_spec (session_status s) "active") as [Hst | Hst];
    simpl; [| reflexivity].
  destruct Hdef as [Hne | [[b Hb] [e He]]]; [contradiction |].
  rewrite Hb, He.
  destruct (Z.leb_spec b now); [| reflexivity].
  destruct (Z.leb_spec now e); [| reflexivity].
  exfalso. apply Hno. split; [exact Hst |].
  exists b, e. repeat split; assumption.
Qed.

(** The decision of [can_user_vote] once the session is known active. *)
Lemma can_user_vote_active st s u now :
  is_active s now = Ok true ->
  can_user_vote st s u now
  = if requires_authentication s && negb (email_verified u) then
      Ok (false, "Email verification required")
    else if vote_changing_prevented s && has_user_voted st s (user_id u) then
      Ok (false, "Already voted in this session")
    else Ok (true, "Can vote").
Proof. intros Ha. unfold can_user_vote. rewrite Ha. reflexivity. Qed.

(** C9 (amended): for a session whose voting window is assigned, or
    whose status is not "active", [can_user_vote] returns false, with one
    of its three reasons, exactly when the session is not active (status
    other than "active", or the time outside the voting window), or
    authentication is required and the user's email is unverified, or
    [prevent_vote_changing] is set and the storage has a vote of the user
    in the session; otherwise it returns true. *)
Theorem can_user_vote_gating :
  forall (st : Storage) (s : VotingSession) (u : User) (now : Z),
    session_status s <> "active" \/ voting_window_assigned s ->
    let blocked :=
      ~ session_active s now
      \/ (requires_authentication s = true /\ email_verified u = false)
      \/ (prevent_vote_changing s = Some true
          /\ has_user_voted st s (user_id u) = true) in
    (blocked ->
       exists reason,
         can_user_vote st s u now = Ok (false, reason)
         /\ (reason = "Voting session is not active"
             \/ reason = "Email verification required"
             \/ reason = "Already voted in this session"))
    /\ (~ blocked -> can_user_vote st s u now = Ok (true, "Can vote")).
Proof.
  intros st s u now Hdef blocked. subst blocked.
  assert (Hdec : session_active s now \/ ~ session_active s now).
  { destruct (is_active s now) as [[|] | e] eqn:Ha.
    - left. unfold is_active in Ha.
      destruct (String.eqb_spec (session_status s) "active") as [Hst | Hst];
        simpl in Ha; [| discriminate].
      destruct (start_time s) as [b |] eqn:Hb; [| discriminate].
      destruct (Z.leb_spec b now); [| discriminate].
      destruct (end_time s) as [e |] eqn:He; [| discriminate].
      injection Ha as Ha. apply Z.leb_le in Ha.
      split; [exact Hst |]. exists b, e. repeat split; assumption.
    - right. intros Hact. rewrite (is_active_true s now Hact) in Ha.
      discriminate.
    - right. intros Hact. rewrite (is_active_true s now Hact) in Ha.
      discriminate. }
  destruct Hdec as [Hact | Hinact].
  - rewrite (can_user_vote_active st s u now (is_active_true s now Hact)).
    unfold vote_changing_prevented.
    destruct (requires_authentication s), (email_verified u); simpl;
      destruct (prevent_vote_changing s) as [[|] |]; simpl;
      destruct (has_user_voted st s (user_id u)); simpl;
      (split;
       [ intros Hb;
         first [ solve [eexists; split; [reflexivity | tauto]]
               | exfalso; destruct Hb as [Hb | [[H1 H2] | [H1 H2]]];
                 [contradiction | congruence | congruence] ]
       | intros Hnb;
         first [ reflexivity
               | exfalso; apply Hnb; right;
                 first [ left; split; reflexivity
                       | right; split; reflexivity ] ] ]).
  - split.
    + intros _. unfold can_user_vote.
      rewrite (is_active_false s now Hdef Hinact). simpl.
      eexists. split; [reflexivity | tauto].
    + intros Hnb. exfalso. apply Hnb. left. exact Hinact.
Qed.

(** The theorem at a verified voter with a vote on record, in a storage
    where the voter has voted and in one where nobody has. *)
Lemma can_user_vote_gating_witness :
  (exists reason,
     can_user_vote demo_storage demo_session demo_verified_user 150
     = Ok (false, reason))
  /\ can_user_vote (placeholder_storage (fun _ => None) (fun _ => None))
       demo_session demo_verified_user 150
     = Ok (true, "Can vote").
Proof.
  assert (Hdef : session_status demo_session <> "active"
                 \/ voting_window_assigned demo_session).
  { right. split; eexists; reflexivity. }
  assert (Hact : session_active demo_session 150).
  { split; [reflexivity |]. exists 100, 200. repeat split; lia. }
  split.
  - destruct (proj1 (can_user_vote_gating demo_storage demo_session
                       demo_verified_user 150 Hdef))
      as (reason & Hr & _).
    + right. right. split; reflexivity.
    + exists reason. exact Hr.
  - apply (proj2 (can_user_vote_gating
                    (placeholder_storage (fun _ => None) (fun _ => None))
                    demo_session demo_verified_user 150 Hdef)).
    intros [Hno | [[_ He] | [_ Hv]]];
      [contradiction | discriminate He | discriminate Hv].
Defined.

(** C9, as stated, fails: for a session set to "active" whose window was
    never assigned, the session is not active, yet [can_user_vote] returns
    no refusal: reading the window raises. *)
Lemma active_without_window_raises :
  ~ (forall (st : Storage) (s : VotingSession) (u : User) (now : Z),
       ~ session_active s now ->
       exists reason, can_user_vote st s u now = Ok (false, reason)).
Proof.
  intros H.
  destruct (H demo_storage demo_unscheduled_session demo_verified_user 5)
    as (reason & Hr).
  - intros (_ & b & e & Hb & _). discriminate Hb.
  - vm_compute in Hr. discriminate Hr.
Qed.

(** ** The default session and repeated votes *)

(** C10: the constructor assigns no [prevent_vote_changing]; for a session
    without that attribute [can_user_vote] never returns "Already voted in
    this session", and when the session is active and the authentication
    test passes it returns true for a voter who has a vote on record. *)
Theorem default_session_allows_revote :
  (forall (uuid competition name : string) (vt : VotingType)
          (created_by : string) (t0 : Z),
      prevent_vote_changing
        (VotingSession_init uuid competition name vt created_by t0) = None)
  /\ forall (st : Storage) (s : VotingSession) (u : User) (now : Z),
       prevent_vote_changing s = None ->
       can_user_vote st s u now <> Ok (false, "Already voted in this session")
       /\ (session_active s now ->
           requires_authentication s && negb (email_verified u) = false ->
           has_user_voted st s (user_id u) = true ->
           can_user_vote st s u now = Ok (true, "Can vote")).
Proof.
  split; [reflexivity |].
  intros st s u now Hnone. split.
  - unfold can_user_vote, vote_changing_prevented. rewrite Hnone.
    destruct (is_active s now) as [[|] | e]; simpl; try discriminate.
    destruct (requires_authentication s && negb (email_verified u));
      discriminate.
  - intros Hact Hauth _.
    rewrite (can_user_vote_active st s u now (is_active_true s now Hact)).
    unfold vote_changing_prevented. rewrite Hauth, Hnone. reflexivity.
Qed.

(** The theorem at a constructed session, opened on [100, 200], and a
    verified voter who has voted. *)
Lemma default_session_allows_revote_witness :
  let s := opened (VotingSession_init "vs-2" "comp-1" "Finals" TRADITIONAL
                     "user-1" 0) 100 200 in
  has_user_voted demo_storage s (user_id demo_verified_user) = true
  /\ can_user_vote demo_storage s demo_verified_user 150
     = Ok (true, "Can vote").
Proof.
  intros s. split; [reflexivity |].
  apply (proj2 default_session_allows_revote demo_storage s
           demo_verified_user 150 eq_refl).
  - split; [reflexivity |]. exists 100, 200. repeat split; lia.
  - reflexivity.
  - reflexivity.
Defined.

(** ** Team registration by a user who is not the captain *)

Lemma register_participant_raises_ValueError c pid ptype data e :
  register_participant c pid ptype data = Raise e ->
  exn_class e = "ValueError".
Proof.
  unfold register_participant.
  destruct (_validate_registration c pid ptype) as [can reason].
  destruct can; simpl; [discriminate |].
  intros [= <-]. reflexivity.
Qed.

(** C5, as stated, fails: the error a non-captain gets has the class of the
    validation errors of [register_participant], so the two kinds cannot be
    told apart by class. *)
Lemma non_captain_error_is_a_ValueError :
  ~ (forall (st : Storage) (cid : string) (user : User) (tid : string)
            (competition : Competition) (t : Team),
       Competition_get_by_id st cid = Some competition ->
       tid <> "" ->
       Team_get_by_id st tid = Some t ->
       captain_id t <> user_id user ->
       exists e,
         register_for_competition st cid user (Some tid) = Raise e
         /\ forall c pid ptype data e',
              register_participant c pid ptype data = Raise e' ->
              exn_class e <> exn_class e').
Proof.
  intros H.
  destruct (H demo_team_storage "comp-1" demo_verified_user "team-1"
              demo_competition demo_team)
    as (e & He & Hdistinct); try reflexivity; try discriminate.
  vm_compute in He. injection He as <-.
  apply (Hdistinct demo_competition "user-2" "judge" None
           (ValueError "Invalid participant type")); reflexivity.
Qed.

(** C5 (amended): when the competition and the team are found, a user who
    is not the team's captain is refused with a [ValueError] whose reason is
    "Only team captain can register team"; it has the same class as every
    error [register_participant] raises and differs from them by its reason.
    When the user is the captain, the result is that of
    [register_participant] for the team as a 'team' participant. *)
Theorem team_registration_captain_check :
  forall (st : Storage) (cid : string) (user : User) (tid : string)
         (competition : Competition) (t : Team),
    Competition_get_by_id st cid = Some competition ->
    tid <> "" ->
    Team_get_by_id st tid = Some t ->
    (captain_id t <> user_id user ->
       register_for_competition st cid user (Some tid)
       = Raise (ValueError "Only team captain can register team")
       /\ forall c pid ptype data e',
            register_participant c pid ptype data = Raise e' ->
            exn_class e'
            = exn_class (ValueError "Only team captain can register team")
            /\ exn_reason e' <> "Only team captain can register team")
    /\ (captain_id t = user_id user ->
        register_for_competition st cid user (Some tid)
        = register_participant competition tid "team" None).
Proof.
  intros st cid user tid competition t Hc Htid Ht.
  assert (Hgiven : given (Some tid) = Some tid).
  { simpl. destruct (String.eqb_spec tid ""); [contradiction | reflexivity]. }
  unfold register_for_competition. rewrite Hc, Hgiven, Ht. split.
  - intros Hcap.
    destruct (String.eqb_spec (captain_id t) (user_id user));
      [contradiction |]. simpl. split; [reflexivity |].
    intros c pid ptype data e' He'. split.
    + exact (register_participant_raises_ValueError c pid ptype data e' He').
    + unfold register_participant, _validate_registration in He'.
      destruct (negb (String.eqb ptype "individual"
                      || String.eqb ptype "team"));
        simpl in He'; [injection He' as <-; discriminate |].
      destruct (String.eqb ptype "individual"
                && bool_decide (competition_type c = TEAM));
        simpl in He'; [injection He' as <-; discriminate |].
      destruct (String.eqb ptype "team"
                && bool_decide (competition_type c = INDIVIDUAL));
        simpl in He'; [injection He' as <-; discriminate | discriminate].
  - intros Hcap.
    destruct (String.eqb_spec (captain_id t) (user_id user));
      [reflexivity | contradiction].
Qed.

(** The theorem at the team of "user-1": refused for "user-2", passed on to
    the competition's validation for "user-1". *)
Lemma team_registration_captain_check_witness :
  register_for_competition demo_team_storage "comp-1" demo_verified_user
    (Some "team-1")
  = Raise (ValueError "Only team captain can register team")
  /\ register_for_competition demo_team_storage "comp-1" demo_user
       (Some "team-1")
     = Raise (ValueError
         "Team registration not allowed for individual competition").
Proof.
  split.
  - apply (proj1 (team_registration_captain_check demo_team_storage "comp-1"
                    demo_verified_user "team-1" demo_competition demo_team
                    eq_refl ltac:(discriminate) eq_refl)).
    discriminate.
  - rewrite (proj2 (team_registration_captain_check demo_team_storage "comp-1"
                      demo_user "team-1" demo_competition demo_team
                      eq_refl ltac:(discriminate) eq_refl) eq_refl).
    reflexivity.
Defined.

(** ** Manual judge assignment *)

Lemma assign_judges_loop cid method (judge_ids : list string)
    (acc : list JudgeAssignment) :
  fold_left
    (fun assignments judge_id =>
       (assignments ++ [ mkJudgeAssignment cid judge_id method ])%list)
    judge_ids acc
  = (acc ++ map (fun judge_id => mkJudgeAssignment cid judge_id method)
                judge_ids)%list.
Proof.
  revert acc. induction judge_ids as [| j js IH]; intros acc; simpl.
  - rewrite app_nil_r. reflexivity.
  - rewrite IH, <- app_assoc. reflexivity.
Qed.

Lemma assignments_for_map cid method (j : string) (judge_ids : list string) :
  length (assignments_for cid j
            (map (fun judge_id => mkJudgeAssignment cid judge_id method)
                 judge_ids))
  = length (filter (fun judge_id => judge_id = j) judge_ids).
Proof.
  unfold assignments_for.
  induction judge_ids as [| k ks IH]; [reflexivity |].
  simpl map. rewrite !filter_cons. simpl.
  destruct (decide (k = j)) as [-> | Hne].
  - rewrite decide_True by (split; reflexivity). simpl. rewrite IH.
    reflexivity.
  - rewrite decide_False by (intros [_ Heq]; contradiction). exact IH.
Qed.

(** C6, as stated, fails: a judge listed twice gets two assignments for
    the same competition, not one. *)
Lemma duplicate_judge_assigned_twice :
  ~ (forall (cid j method : string),
       length (assignments_for cid j
                 (assign_judges_to_competition cid [j; j] method)) = 1%nat).
Proof.
  intros H. specialize (H "comp-1" "judge-1" "manual").
  vm_compute in H. discriminate H.
Qed.

(** C6 (amended): the assignment returns one JudgeAssignment per element of
    [judge_ids], in order and with repetitions kept: as many records as
    identifiers, and for each judge as many records as the judge has
    occurrences in the list. The records of two calls, put together, are
    those of one call on the two lists one after the other. *)
Theorem assign_judges_one_per_element :
  forall (cid : string) (judge_ids : list string) (method : string),
    assign_judges_to_competition cid judge_ids method
    = map (fun judge_id => mkJudgeAssignment cid judge_id method) judge_ids
    /\ length (assign_judges_to_competition cid judge_ids method)
       = length judge_ids
    /\ (forall j : string,
          length (assignments_for cid j
                    (assign_judges_to_competition cid judge_ids method))
          = length (filter (fun judge_id => judge_id = j) judge_ids))
    /\ forall more : list string,
         (assign_judges_to_competition cid judge_ids method
          ++ assign_judges_to_competition cid more method)%list
         = assign_judges_to_competition cid (judge_ids ++ more) method.
Proof.
  intros cid judge_ids method.
  assert (Hmap : assign_judges_to_competition cid judge_ids method
                 = map (fun judge_id => mkJudgeAssignment cid judge_id method)
                       judge_ids).
  { unfold assign_judges_to_competition.
    rewrite assign_judges_loop. reflexivity. }
  rewrite Hmap. split; [reflexivity |]. split; [| split].
  - apply length_map.
  - intros j. apply assignments_for_map.
  - intros more. unfold assign_judges_to_competition.
    rewrite !assign_judges_loop, map_app. reflexivity.
Qed.

(** ** Rapid-vote anomaly *)

Import Pipeline.

Lemma seen_other last df (k : Z) :
  Forall (fun r => submission_id r <> k) df ->
  seen last df !! k = last !! k.
Proof.
  revert last. induction df as [| r rest IH]; intros last Hall; simpl;
    [reflexivity |].
  inversion Hall as [| ? ? Hr Hrest]; subst.
  rewrite (IH _ Hrest). apply lookup_insert_ne. exact Hr.
Qed.

Lemma seen_app last df1 df2 :
  seen last (df1 ++ df2) = seen (seen last df1) df2.
Proof. unfold seen. apply fold_left_app. Qed.

(** Where the latest timestamp of a submission comes from: its last row
    in the run, or the starting map when the run has no row of it. *)
Lemma seen_origin last df (k : Z) (x : option Z) :
  seen last df !! k = Some x ->
  (exists pre p mid,
      df = (pre ++ p :: mid)%list
      /\ submission_id p = k
      /\ Forall (fun r => submission_id r <> k) mid
      /\ vote_timestamp p = x)
  \/ (Forall (fun r => submission_id r <> k) df /\ last !! k = Some x).
Proof.
  induction df as [| a l IH] using rev_ind; intros Hx.
  - right. split; [constructor | exact Hx].
  - rewrite seen_app in Hx. simpl in Hx.
    destruct (decide (submission_id a = k)) as [Ha | Ha].
    + rewrite Ha, lookup_insert_eq in Hx. injection Hx as <-.
      left. exists l, a, []. repeat split; [exact Ha | constructor].
    + rewrite lookup_insert_ne in Hx by exact Ha.
      destruct (IH Hx) as [(pre & p & mid & -> & Hp & Hmid & Hts) | [Hl Hlast]].
      * left. exists pre, p, (mid ++ [a])%list.
        rewrite <- app_assoc. repeat split; try assumption.
        apply Forall_app.
        split; [exact Hmid | constructor; [exact Ha | constructor]].
      * right. split; [| exact Hlast].
        apply Forall_app.
        split; [exact Hl | constructor; [exact Ha | constructor]].
Qed.

(** The previous timestamp of the later vote of a consecutive pair. *)
Lemma previous_of_pair pre p mid v :
  submission_id p = submission_id v ->
  Forall (fun r => submission_id r <> submission_id v) mid ->
  default None (seen ∅ (pre ++ p :: mid) !! submission_id v)
  = vote_timestamp p.
Proof.
  intros Hsame Hmid.
  replace (pre ++ p :: mid)%list with ((pre ++ [p]) ++ mid)%list
    by (rewrite <- app_assoc; reflexivity).
  rewrite seen_app, (seen_other _ mid _ Hmid), seen_app. simpl.
  rewrite Hsame, lookup_insert_eq. reflexivity.
Qed.

Lemma sub_timestamps_fits (t1 t2 : Z) :
  INT64_MIN < t2 - t1 <= INT64_MAX ->
  sub_timestamps (Some t2) (Some t1) = Returns (Some (t2 - t1)).
Proof.
  intros [Hlo Hhi]. unfold sub_timestamps. simpl.
  destruct (Z.ltb_spec (t2 - t1) INT64_MIN) as [Hno | _]; [lia |].
  destruct (Z.ltb_spec INT64_MAX (t2 - t1)) as [Hno | _]; [lia |].
  simpl. destruct (Z.eqb_spec (t2 - t1) INT64_MIN) as [Hno | _];
    [lia | reflexivity].
Qed.

Lemma sub_timestamps_overflow (t1 t2 : Z) :
  t2 - t1 < INT64_MIN \/ INT64_MAX < t2 - t1 ->
  sub_timestamps (Some t2) (Some t1) = OverflowError.
Proof.
  intros Hout. unfold sub_timestamps. simpl.
  destruct (Z.ltb_spec (t2 - t1) INT64_MIN) as [_ | Hlo]; [reflexivity |].
  destruct (Z.ltb_spec INT64_MAX (t2 - t1)) as [_ | Hhi]; [reflexivity |].
  lia.
Qed.

Lemma sub_timestamps_NaT (t previous : option Z) :
  t = None \/ previous = None -> sub_timestamps t previous = Returns None.
Proof. intros [-> | ->]; [| destruct t]; reflexivity. Qed.

(** The stage, one row at a time. *)
Lemma detect_from_cons last r rest :
  detect_from last (r :: rest)
  = match sub_timestamps (vote_timestamp r)
            (default None (last !! submission_id r)) with
    | OverflowError => OverflowError
    | Returns d =>
        match detect_from (<[submission_id r := vote_timestamp r]> last) rest
        with
        | OverflowError => OverflowError
        | Returns scored => Returns (mkScored r d (rapid d) :: scored)
        end
    end.
Proof.
  unfold detect_from, groupby_diff. simpl.
  destruct (sub_timestamps (vote_timestamp r)
              (default None (last !! submission_id r))); [| reflexivity].
  destruct (sub_columns (map vote_timestamp rest)
              (groupby_shift (<[submission_id r := vote_timestamp r]> last)
                 rest)); reflexivity.
Qed.

Lemma detect_from_row last pre v post scored :
  detect_from last (pre ++ v :: post) = Returns scored ->
  exists d,
    sub_timestamps (vote_timestamp v)
      (default None (seen last pre !! submission_id v)) = Returns d
    /\ scored !! length pre = Some (mkScored v d (rapid d)).
Proof.
  revert last scored. induction pre as [| r pre' IH]; intros last scored;
    simpl app; rewrite detect_from_cons.
  - destruct (sub_timestamps (vote_timestamp v)
                (default None (last !! submission_id v))) as [d |] eqn:Hd;
      [| discriminate].
    destruct (detect_from _ post) as [sc |]; [| discriminate].
    intros [= <-]. exists d. split; [exact Hd | reflexivity].
  - destruct (sub_timestamps (vote_timestamp r)
                (default None (last !! submission_id r))) as [d0 |];
      [| discriminate].
    destruct (detect_from _ (pre' ++ v :: post)) as [sc |] eqn:Hrest;
      [| discriminate].
    intros [= <-]. destruct (IH _ _ Hrest) as (d & Hd & Hsc).
    exists d. split; [exact Hd | exact Hsc].
Qed.

Lemma detect_from_returns last df :
  (forall pre v post,
      df = (pre ++ v :: post)%list ->
      exists d,
        sub_timestamps (vote_timestamp v)
          (default None (seen last pre !! submission_id v)) = Returns d) ->
  exists scored, detect_from last df = Returns scored.
Proof.
  revert last. induction df as [| r rest IH]; intros last Hrows.
  - eexists. reflexivity.
  - rewrite detect_from_cons.
    destruct (Hrows [] r rest eq_refl) as (d & Hd). simpl in Hd. rewrite Hd.
    destruct (IH (<[submission_id r := vote_timestamp r]> last)) as (sc & Hsc).
    + intros pre v post ->. exact (Hrows (r :: pre) v post eq_refl).
    + rewrite Hsc. eexists. reflexivity.
Qed.

Lemma detect_from_overflow last pre v post :
  sub_timestamps (vote_timestamp v)
    (default None (seen last pre !! submission_id v)) = OverflowError ->
  detect_from last (pre ++ v :: post) = OverflowError.
Proof.
  revert last. induction pre as [| r pre' IH]; intros last Hv;
    simpl app; rewrite detect_from_cons.
  - simpl in Hv. rewrite Hv. reflexivity.
  - destruct (sub_timestamps (vote_timestamp r)
                (default None (last !! submission_id r))); [| reflexivity].
    rewrite (IH _ Hv). reflexivity.
Qed.

Lemma detect_from_rows last df scored :
  detect_from last df = Returns scored -> map row scored = df.
Proof.
  revert last scored. induction df as [| r rest IH]; intros last scored.
  - intros [= <-]. reflexivity.
  - rewrite detect_from_cons.
    destruct (sub_timestamps (vote_timestamp r)
                (default None (last !! submission_id r))) as [d |];
      [| discriminate].
    destruct (detect_from _ rest) as [sc |] eqn:Hrest; [| discriminate].
    intros [= <-]. simpl. rewrite (IH _ _ Hrest). reflexivity.
Qed.

(** A frame whose differences fit makes no subtraction overflow. *)
Lemma frame_fits_rows df :
  frame_fits df ->
  forall pre v post,
    df = (pre ++ v :: post)%list ->
    exists d,
      sub_timestamps (vote_timestamp v)
        (default None (seen ∅ pre !! submission_id v)) = Returns d.
Proof.
  intros Hfits pre v post ->.
  destruct (vote_timestamp v) as [t2 |] eqn:Hv;
    [| eexists; apply sub_timestamps_NaT; left; reflexivity].
  destruct (seen ∅ pre !! submission_id v) as [[t1 |] |] eqn:Hseen;
    try (eexists; apply sub_timestamps_NaT; right; reflexivity).
  destruct (seen_origin _ _ _ _ Hseen)
    as [(pre0 & p & mid & -> & Hp & Hmid & Hts) | [_ Hempty]];
    [| rewrite lookup_empty in Hempty; discriminate].
  eexists. simpl. apply sub_timestamps_fits.
  apply (Hfits p v t1 t2); [| exact Hts | exact Hv].
  exists pre0, mid, post. rewrite <- app_assoc. auto.
Qed.

Lemma frame_fits_returns df :
  frame_fits df -> exists scored, detect_anomalies df = Returns scored.
Proof.
  intros Hfits. apply detect_from_returns. exact (frame_fits_rows df Hfits).
Qed.

Lemma near_epoch_fits df : timestamps_near_epoch df -> frame_fits df.
Proof.
  unfold timestamps_near_epoch. rewrite Forall_forall.
  intros Hnear p v t1 t2 (pre & mid & post & -> & _ & _) Hp Hv.
  assert (Hpin : p ∈ (pre ++ p :: mid ++ v :: post)%list)
    by (apply elem_of_app; right; left).
  assert (Hvin : v ∈ (pre ++ p :: mid ++ v :: post)%list).
  { apply elem_of_app. right. right. apply elem_of_app. right. left. }
  pose proof (Hnear p Hpin) as Hpb. pose proof (Hnear v Hvin) as Hvb.
  rewrite Hp in Hpb. rewrite Hv in Hvb.
  unfold INT64_MIN, INT64_MAX.
  change (2 ^ 62) with 4611686018427387904 in *. lia.
Qed.

(** The flag of the later vote of a consecutive pair in a scored frame. *)
Lemma flag_of_pair pre p mid v post scored :
  detect_anomalies (pre ++ p :: mid ++ v :: post) = Returns scored ->
  submission_id p = submission_id v ->
  Forall (fun r => submission_id r <> submission_id v) mid ->
  exists d,
    sub_timestamps (vote_timestamp v) (vote_timestamp p) = Returns d
    /\ flag_at scored (length pre + S (length mid)) = Some (rapid d).
Proof.
  intros Hret Hsame Hmid. unfold detect_anomalies in Hret.
  replace (pre ++ p :: mid ++ v :: post)%list
    with ((pre ++ p :: mid) ++ v :: post)%list in Hret
    by (rewrite <- app_assoc; reflexivity).
  destruct (detect_from_row _ _ _ _ _ Hret) as (d & Hd & Hsc).
  rewrite (previous_of_pair pre p mid v Hsame Hmid) in Hd.
  exists d. split; [exact Hd |].
  unfold flag_at.
  replace (length pre + S (length mid))%nat
    with (length (pre ++ p :: mid)%list)
    by (rewrite length_app; reflexivity).
  rewrite Hsc. reflexivity.
Qed.




(* ===================================================================== *)
(** * Further properties *)
(* ===================================================================== *)

(** ** Slugs *)

(** Case analysis on the 256 characters. *)
Ltac each_char c :=
  destruct c as [[] [] [] [] [] [] [] []]; vm_compute; try tauto;
  try discriminate; try reflexivity.

Lemma hyphen_is_the_hyphen (c : ascii) : is_hyphen c = true -> c = "-"%char.
Proof. each_char c. Qed.

Lemma hyphen_is_separator (c : ascii) :
  is_hyphen c = true -> is_separator c = true.
Proof. each_char c. Qed.

Lemma kept_lowered_char (c : ascii) :
  is_kept (lower_char c) = true ->
  is_separator (lower_char c) = true
  \/ (is_slug_char (lower_char c) = true
      /\ is_hyphen (lower_char c) = false).
Proof. each_char c. Qed.

Lemma slug_char_fixed (c : ascii) :
  is_slug_char c = true ->
  lower_char c = c /\ is_kept c = true
  /\ (is_separator c = true -> is_hyphen c = true).
Proof. each_char c. Qed.

Lemma no_letter_or_digit_lowered (c : ascii) :
  is_digit c = false -> is_lower c = false -> is_upper c = false ->
  is_kept (lower_char c) = true -> is_separator (lower_char c) = true.
Proof. each_char c. Qed.

Lemma not_separator_not_hyphen (c : ascii) :
  is_separator c = false -> is_hyphen c = false.
Proof.
  intros Hs. destruct (is_hyphen c) eqn:Hh; [| reflexivity].
  rewrite (hyphen_is_separator c Hh) in Hs. discriminate.
Qed.

Lemma no_double_hyphen_cons (c : ascii) (s : list ascii) :
  is_hyphen c = false \/ starts_with_hyphen s = false ->
  no_double_hyphen s -> no_double_hyphen (c :: s).
Proof.
  intros Hc Hs. destruct s as [| d s']; simpl; [exact I |].
  split; [| exact Hs].
  intros [H1 H2]. simpl in Hc. destruct Hc; congruence.
Qed.

Lemma no_double_hyphen_tail (c : ascii) (s : list ascii) :
  no_double_hyphen (c :: s) -> no_double_hyphen s.
Proof. destruct s; simpl; [trivial | intros [_ H]; exact H]. Qed.

Lemma collapse_in_run_start (s : list ascii) :
  starts_with_hyphen (collapse_separators true s) = false.
Proof.
  induction s as [| c rest IH]; simpl; [reflexivity |].
  destruct (is_separator c) eqn:Hs; [exact IH |].
  simpl. exact (not_separator_not_hyphen c Hs).
Qed.

Lemma collapse_no_double_hyphen (in_run : bool) (s : list ascii) :
  no_double_hyphen (collapse_separators in_run s).
Proof.
  revert in_run. induction s as [| c rest IH]; intros in_run; simpl;
    [exact I |].
  destruct (is_separator c) eqn:Hs.
  - destruct in_run; [apply IH |].
    apply no_double_hyphen_cons;
      [right; apply collapse_in_run_start | apply IH].
  - apply no_double_hyphen_cons; [| apply IH].
    left. exact (not_separator_not_hyphen c Hs).
Qed.

Lemma collapse_slug_chars (in_run : bool) (s : list ascii) :
  Forall (fun c => is_separator c = true
                   \/ (is_slug_char c = true /\ is_hyphen c = false)) s ->
  Forall (fun c => is_slug_char c = true) (collapse_separators in_run s).
Proof.
  revert in_run. induction s as [| c rest IH]; intros in_run Hall; simpl;
    [constructor |].
  inversion Hall as [| ? ? Hc Hrest]; subst.
  destruct (is_separator c) eqn:Hs.
  - destruct in_run; [apply IH; exact Hrest |].
    constructor; [reflexivity | apply IH; exact Hrest].
  - destruct Hc as [Hc | [Hc _]]; [discriminate |].
    constructor; [exact Hc | apply IH; exact Hrest].
Qed.

Lemma kept_lowered_chars (name : list ascii) :
  Forall (fun c => is_separator c = true
                   \/ (is_slug_char c = true /\ is_hyphen c = false))
    (filter (fun c => is_kept c = true) (map lower_char name)).
Proof.
  induction name as [| c rest IH]; simpl; [constructor |].
  rewrite filter_cons.
  destruct (decide (is_kept (lower_char c) = true)) as [Hk | Hk];
    [| exact IH].
  constructor; [exact (kept_lowered_char c Hk) | exact IH].
Qed.

(** Stripping. *)

Lemma lstrip_Forall (P : ascii -> Prop) (s : list ascii) :
  Forall P s -> Forall P (lstrip_hyphens s).
Proof.
  induction s as [| c rest IH]; simpl; intros Hall; [constructor |].
  destruct (is_hyphen c); [| exact Hall].
  apply IH. inversion Hall; assumption.
Qed.

Lemma rstrip_Forall (P : ascii -> Prop) (s : list ascii) :
  Forall P s -> Forall P (rstrip_hyphens s).
Proof.
  induction s as [| c rest IH]; simpl; intros Hall; [constructor |].
  inversion Hall as [| ? ? Hc Hrest]; subst. specialize (IH Hrest).
  destruct (rstrip_hyphens rest) as [| d kept].
  - destruct (is_hyphen c);
      [constructor | constructor; [exact Hc | constructor]].
  - constructor; assumption.
Qed.

Lemma lstrip_start (s : list ascii) :
  starts_with_hyphen (lstrip_hyphens s) = false.
Proof.
  induction s as [| c rest IH]; simpl; [reflexivity |].
  destruct (is_hyphen c) eqn:Hc; [exact IH | simpl; exact Hc].
Qed.

Lemma rstrip_end (s : list ascii) :
  ends_with_hyphen (rstrip_hyphens s) = false.
Proof.
  induction s as [| c rest IH]; simpl; [reflexivity |].
  destruct (rstrip_hyphens rest) as [| d kept].
  - destruct (is_hyphen c) eqn:Hc; [reflexivity | simpl; exact Hc].
  - exact IH.
Qed.

Lemma lstrip_keeps_end (s : list ascii) :
  ends_with_hyphen s = false -> ends_with_hyphen (lstrip_hyphens s) = false.
Proof.
  induction s as [| c rest IH]; [trivial |].
  intros He. simpl lstrip_hyphens. destruct (is_hyphen c) eqn:Hc;
    [| exact He].
  destruct rest as [| d rest']; [reflexivity | apply IH; exact He].
Qed.

Lemma rstrip_head (s : list ascii) (d : ascii) (kept : list ascii) :
  rstrip_hyphens s = d :: kept -> exists t, s = d :: t.
Proof.
  destruct s as [| c rest]; simpl; [discriminate |].
  destruct (rstrip_hyphens rest) as [| e k].
  - destruct (is_hyphen c); [discriminate |].
    intros [= <- _]. eexists; reflexivity.
  - intros [= <- _]. eexists; reflexivity.
Qed.

Lemma lstrip_no_double_hyphen (s : list ascii) :
  no_double_hyphen s -> no_double_hyphen (lstrip_hyphens s).
Proof.
  induction s as [| c rest IH]; intros Hs; [exact I |].
  simpl lstrip_hyphens. destruct (is_hyphen c); [| exact Hs].
  apply IH. exact (no_double_hyphen_tail c rest Hs).
Qed.

Lemma rstrip_no_double_hyphen (s : list ascii) :
  no_double_hyphen s -> no_double_hyphen (rstrip_hyphens s).
Proof.
  induction s as [| c rest IH]; intros Hs; [exact I |].
  simpl rstrip_hyphens.
  specialize (IH (no_double_hyphen_tail c rest Hs)).
  destruct (rstrip_hyphens rest) as [| d kept] eqn:Hr.
  - destruct (is_hyphen c); exact I.
  - destruct (rstrip_head rest d kept Hr) as [t ->].
    split; [apply Hs | exact IH].
Qed.

Lemma lstrip_fixed (s : list ascii) :
  starts_with_hyphen s = false -> lstrip_hyphens s = s.
Proof. destruct s as [| c rest]; simpl; [trivial | intros ->; reflexivity]. Qed.

Lemma rstrip_fixed (s : list ascii) :
  ends_with_hyphen s = false -> rstrip_hyphens s = s.
Proof.
  induction s as [| c rest IH]; [trivial |].
  intros He. simpl rstrip_hyphens.
  destruct rest as [| d rest'].
  - simpl in *. rewrite He. reflexivity.
  - rewrite IH by exact He. reflexivity.
Qed.

Lemma slug_chars_clean (name : list ascii) : clean_slug (slug_chars name).
Proof.
  unfold clean_slug, slug_chars, strip_hyphens.
  split; [| split; [| split]].
  - apply lstrip_Forall, rstrip_Forall, collapse_slug_chars,
      kept_lowered_chars.
  - apply lstrip_no_double_hyphen, rstrip_no_double_hyphen,
      collapse_no_double_hyphen.
  - apply lstrip_start.
  - apply lstrip_keeps_end, rstrip_end.
Qed.

Lemma collapse_clean (s : list ascii) :
  Forall (fun c => is_slug_char c = true) s ->
  no_double_hyphen s ->
  collapse_separators false s = s
  /\ (starts_with_hyphen s = false -> collapse_separators true s = s).
Proof.
  induction s as [| c rest IH]; intros Hall Hnd; [split; reflexivity |].
  inversion Hall as [| ? ? Hc Hrest]; subst.
  destruct (IH Hrest (no_double_hyphen_tail c rest Hnd)) as [IHf IHt].
  destruct (slug_char_fixed c Hc) as (_ & _ & Hsep).
  simpl collapse_separators. destruct (is_separator c) eqn:Hs.
  - specialize (Hsep eq_refl).
    assert (Hrest_start : starts_with_hyphen rest = false).
    { destruct rest as [| d rest']; [reflexivity |]. simpl.
      destruct (is_hyphen d) eqn:Hd; [| reflexivity].
      exfalso. apply (proj1 Hnd). split; assumption. }
    split.
    + rewrite (IHt Hrest_start), (hyphen_is_the_hyphen c Hsep). reflexivity.
    + simpl. intros Hno. congruence.
  - rewrite IHf. split; [reflexivity | intros _; reflexivity].
Qed.

Lemma slug_chars_fixed (s : list ascii) : clean_slug s -> slug_chars s = s.
Proof.
  intros (Hall & Hnd & Hstart & Hend). unfold slug_chars, strip_hyphens.
  assert (Hmap : map lower_char s = s).
  { clear Hnd Hstart Hend. induction Hall as [| c rest Hc _ IH];
      [reflexivity |].
    simpl. rewrite IH, (proj1 (slug_char_fixed c Hc)). reflexivity. }
  assert (Hfilter : filter (fun c => is_kept c = true) s = s).
  { clear Hnd Hstart Hend Hmap. induction Hall as [| c rest Hc _ IH];
      [reflexivity |].
    rewrite filter_cons, decide_True, IH; [reflexivity |].
    exact (proj1 (proj2 (slug_char_fixed c Hc))). }
  rewrite Hmap, Hfilter, (proj1 (collapse_clean s Hall Hnd)).
  rewrite (rstrip_fixed s Hend). apply lstrip_fixed. exact Hstart.
Qed.

Lemma collapse_only_separators (s : list ascii) :
  Forall (fun c => is_separator c = true) s ->
  collapse_separators true s = []
  /\ (collapse_separators false s = []
      \/ collapse_separators false s = ["-"%char]).
Proof.
  induction 1 as [| c rest Hc _ [IHt IHf]]; simpl; [auto |].
  rewrite Hc, IHt. auto.
Qed.

Lemma alnum_lowered (c : ascii) :
  is_alnum c = true ->
  is_kept (lower_char c) = true /\ is_separator (lower_char c) = false.
Proof. each_char c; split; reflexivity. Qed.

Lemma not_alnum_lowered (c : ascii) :
  is_alnum c = false ->
  is_kept (lower_char c) = true -> is_separator (lower_char c) = true.
Proof. each_char c. Qed.

Lemma collapse_keeps (in_run : bool) (c : ascii) (s : list ascii) :
  In c s -> is_separator c = false -> In c (collapse_separators in_run s).
Proof.
  revert in_run. induction s as [| d rest IH]; intros in_run Hin Hc;
    [contradiction |].
  simpl. destruct Hin as [-> | Hin].
  - rewrite Hc. left. reflexivity.
  - destruct (is_separator d); [destruct in_run |];
      try right; apply IH; assumption.
Qed.

Lemma lstrip_keeps (c : ascii) (s : list ascii) :
  In c s -> is_hyphen c = false -> In c (lstrip_hyphens s).
Proof.
  induction s as [| d rest IH]; intros Hin Hc; [contradiction |].
  simpl. destruct (is_hyphen d) eqn:Hd; [| exact Hin].
  destruct Hin as [-> | Hin]; [congruence | apply IH; assumption].
Qed.

Lemma rstrip_keeps (c : ascii) (s : list ascii) :
  In c s -> is_hyphen c = false -> In c (rstrip_hyphens s).
Proof.
  induction s as [| d rest IH]; intros Hin Hc; [contradiction |].
  simpl. destruct Hin as [-> | Hin].
  - destruct (rstrip_hyphens rest); [rewrite Hc |]; left; reflexivity.
  - specialize (IH Hin Hc).
    destruct (rstrip_hyphens rest); [contradiction | right; exact IH].
Qed.

Lemma kept_lowered_In (c : ascii) (name : list ascii) :
  In c name -> is_kept (lower_char c) = true ->
  In (lower_char c) (filter (fun c => is_kept c = true) (map lower_char name)).
Proof.
  induction name as [| d rest IH]; intros Hin Hk; [contradiction |].
  simpl. rewrite filter_cons. destruct Hin as [-> | Hin].
  - rewrite decide_True by exact Hk. left. reflexivity.
  - destruct (decide (is_kept (lower_char d) = true));
      [right |]; apply IH; assumption.
Qed.

Lemma only_separators_kept (name : list ascii) :
  Forall (fun c => is_alnum c = false) name ->
  Forall (fun c => is_separator c = true)
    (filter (fun c => is_kept c = true) (map lower_char name)).
Proof.
  induction 1 as [| c rest Hc _ IH]; simpl; [constructor |].
  rewrite filter_cons.
  destruct (decide (is_kept (lower_char c) = true)) as [Hk | Hk];
    [| exact IH].
  constructor; [exact (not_alnum_lowered c Hc Hk) | exact IH].
Qed.

Lemma slug_chars_empty (name : list ascii) :
  slug_chars name = [] <-> Forall (fun c => is_alnum c = false) name.
Proof.
  split.
  - intros Hempty. apply Forall_forall. intros c Hin.
    destruct (is_alnum c) eqn:Ha; [| reflexivity]. exfalso.
    destruct (alnum_lowered c Ha) as [Hk Hs].
    assert (Hslug : In (lower_char c) (slug_chars name)).
    { unfold slug_chars, strip_hyphens.
      apply lstrip_keeps; [| exact (not_separator_not_hyphen _ Hs)].
      apply rstrip_keeps; [| exact (not_separator_not_hyphen _ Hs)].
      apply collapse_keeps; [| exact Hs].
      apply kept_lowered_In; [apply list_elem_of_In; exact Hin | exact Hk]. }
    rewrite Hempty in Hslug. contradiction.
  - intros Hall. unfold slug_chars.
    destruct (collapse_only_separators _ (only_separators_kept name Hall))
      as [_ [-> | ->]]; reflexivity.
Qed.

(** X1: for a name of ASCII characters, the slug is made of lower-case
    letters, digits and hyphens only, has no two hyphens in a row and
    neither starts nor ends with a hyphen. *)
Theorem generate_slug_well_formed :
  forall name : string,
    ascii_only name ->
    clean_slug (list_ascii_of_string (_generate_slug name)).
Proof.
  intros name _. unfold _generate_slug.
  rewrite list_ascii_of_string_of_list_ascii. apply slug_chars_clean.
Qed.

Lemma generate_slug_well_formed_witness :
  _generate_slug "C++ & Rust: 100% fun!" = "c-rust-100-fun"
  /\ clean_slug (list_ascii_of_string "c-rust-100-fun").
Proof.
  split; [reflexivity |].
  apply (generate_slug_well_formed "C++ & Rust: 100% fun!").
  unfold ascii_only. simpl. repeat constructor.
Defined.

(** X2: a well-formed slug is its own slug, so on an ASCII name slugging
    twice gives what slugging once gives. *)
Theorem generate_slug_idempotent :
  (forall s : string,
      clean_slug (list_ascii_of_string s) -> _generate_slug s = s)
  /\ forall name : string,
       ascii_only name ->
       _generate_slug (_generate_slug name) = _generate_slug name.
Proof.
  assert (Hfixed : forall s : string,
             clean_slug (list_ascii_of_string s) -> _generate_slug s = s).
  { intros s Hclean. unfold _generate_slug.
    rewrite (slug_chars_fixed _ Hclean).
    apply string_of_list_ascii_of_string. }
  split; [exact Hfixed |].
  intros name _. apply Hfixed. unfold _generate_slug.
  rewrite list_ascii_of_string_of_list_ascii. apply slug_chars_clean.
Qed.

Lemma generate_slug_idempotent_witness :
  _generate_slug (_generate_slug "AI Innovation Challenge 2024")
  = "ai-innovation-challenge-2024".
Proof.
  rewrite (proj2 generate_slug_idempotent "AI Innovation Challenge 2024").
  - reflexivity.
  - unfold ascii_only. simpl. repeat constructor.
Defined.

(** X3: for an ASCII name, the slug is empty exactly when the name holds no
    letter and no digit (the empty name, or punctuation, spaces,
    underscores and hyphens only). *)
Theorem generate_slug_empty :
  forall name : string,
    ascii_only name ->
    (_generate_slug name = ""
     <-> Forall (fun c => is_alnum c = false) (list_ascii_of_string name)).
Proof.
  intros name _. rewrite <- slug_chars_empty. unfold _generate_slug. split.
  - intros H. apply (f_equal list_ascii_of_string) in H.
    rewrite list_ascii_of_string_of_list_ascii in H. exact H.
  - intros ->. reflexivity.
Qed.

Lemma generate_slug_empty_witness : _generate_slug "--- !!! ___" = "".
Proof.
  apply (generate_slug_empty "--- !!! ___").
  - unfold ascii_only. simpl. repeat constructor.
  - simpl. repeat constructor.
Defined.

(** ** Invite codes *)

Lemma choice_in_invite_alphabet (draw : nat) :
  is_upper (choice invite_alphabet draw)
  || is_digit (choice invite_alphabet draw) = true.
Proof.
  unfold choice.
  assert (Hlt : (draw mod length invite_alphabet < 36)%nat)
    by (apply Nat.mod_upper_bound; discriminate).
  destruct (draw mod length invite_alphabet)%nat as [| k]; [reflexivity |].
  do 35 (destruct k as [| k]; [reflexivity |]).
  exfalso. lia.
Qed.

(** X4: whatever the random draws are, an invite code has exactly eight
    characters, each an upper-case letter or a digit. *)
Theorem invite_code_shape :
  forall draws : nat -> nat,
    String.length (_generate_invite_code draws) = 8%nat
    /\ Forall (fun c => is_upper c || is_digit c = true)
         (list_ascii_of_string (_generate_invite_code draws)).
Proof.
  intros draws. unfold _generate_invite_code. split; [reflexivity |].
  rewrite list_ascii_of_string_of_list_ascii.
  apply Forall_forall. intros c Hc. apply list_elem_of_In in Hc.
  apply in_map_iff in Hc. destruct Hc as (i & <- & _).
  apply choice_in_invite_alphabet.
Qed.

(** ** Invitations *)

(** X5: [invite_member] creates an invitation of type "invitation" for the
    team exactly when the team is forming and below its capacity. A team
    that is not forming is refused with "Team is not accepting new
    members", full or not; a forming team at or above capacity with "Team
    is full". *)
Theorem invite_member_outcome :
  forall (t : Team) (user inviter message : string),
    (team_status t = "forming" ->
     current_member_count t < max_members t ->
     invite_member t user inviter message
     = Ok (mkTeamInvitation (team_id t) user inviter "invitation" message))
    /\ (team_status t <> "forming" ->
        invite_member t user inviter message
        = Raise (ValueError "Team is not accepting new members"))
    /\ (team_status t = "forming" ->
        max_members t <= current_member_count t ->
        invite_member t user inviter message
        = Raise (ValueError "Team is full")).
Proof.
  intros t user inviter message. unfold invite_member, can_add_member.
  destruct (String.eqb_spec (team_status t) "forming") as [Hs | Hs]; simpl.
  - destruct (Z.geb_spec (current_member_count t) (max_members t));
      simpl; repeat split; intros; try reflexivity; try contradiction; lia.
  - repeat split; intros; try reflexivity; contradiction.
Qed.

Lemma invite_member_outcome_witness :
  invite_member demo_team "user-2" "user-1" "join us"
  = Ok (mkTeamInvitation "team-1" "user-2" "user-1" "invitation" "join us").
Proof.
  apply (proj1 (invite_member_outcome demo_team "user-2" "user-1" "join us"));
    [reflexivity | simpl; lia].
Defined.

(** X6: a team fresh from the constructor can invite exactly when its
    [max_members] is above 1; with [max_members] of 1 or less, zero and
    negative values included, every invitation is refused with "Team is
    full". *)
Theorem new_team_invitations :
  forall (uuid name captain : string) (max_members : Z) (code : string)
         (now : Z) (user inviter message : string),
    let t := Team_init uuid name captain max_members code now in
    (1 < max_members ->
       invite_member t user inviter message
       = Ok (mkTeamInvitation uuid user inviter "invitation" message))
    /\ (max_members <= 1 ->
        invite_member t user inviter message
        = Raise (ValueError "Team is full")).
Proof.
  intros uuid name captain mm code now user inviter message t. subst t.
  unfold invite_member, can_add_member. simpl.
  destruct (Z.geb_spec 1 mm); simpl; split; intros; try reflexivity; lia.
Qed.

Lemma new_team_invitations_witness :
  invite_member (Team_init "team-9" "Solo" "user-1" 1 "ABCD1234" 0)
    "user-2" "user-1" ""
  = Raise (ValueError "Team is full").
Proof.
  apply (proj2 (new_team_invitations "team-9" "Solo" "user-1" 1 "ABCD1234" 0
                  "user-2" "user-1" "")).
  lia.
Defined.

(** ** Creating a competition *)

(** X7: [create_competition] fails exactly when one of the six required
    keys is not in [data], and the error names the first such key in the
    order name, category_id, registration_start, registration_end,
    competition_start, competition_end; with all six present it returns a
    competition. *)
Theorem create_competition_required_fields :
  forall (uuid slug : string) (data : CompetitionData) (created_by : string)
         (now : Z),
    match List.find (fun field => negb (field_in data field)) required_fields
    with
    | Some field =>
        create_competition uuid slug data created_by now
        = Raise (ValueError ("Missing required field: " ++ field))
    | None =>
        exists c, create_competition uuid slug data created_by now = Ok c
    end.
Proof.
  intros uuid slug [n c d ty rs re cs ce] created_by now.
  unfold create_competition.
  destruct n; [| reflexivity].
  destruct c; [| reflexivity].
  destruct rs; [| reflexivity].
  destruct re; [| reflexivity].
  destruct cs; [| reflexivity].
  destruct ce; [| reflexivity].
  simpl. eexists. reflexivity.
Qed.

(** X8: a competition that [create_competition] returns is a draft with
    its four windows assigned and the type of [data], individual when
    [data] has none. Until its status is changed it is open neither for
    registration nor for submissions at any time, and [can_user_register]
    answers "Registration is not open" to every user. *)
Theorem created_competition_is_closed :
  forall (uuid slug : string) (data : CompetitionData) (created_by : string)
         (now : Z) (c : Competition),
    create_competition uuid slug data created_by now = Ok c ->
    competition_id c = uuid
    /\ competition_status c = CS_DRAFT
    /\ competition_type c = default INDIVIDUAL (data_type data)
    /\ registration_start c = data_registration_start data
    /\ registration_end c = data_registration_end data
    /\ competition_start c = data_competition_start data
    /\ competition_end c = data_competition_end data
    /\ registration_window_assigned c
    /\ forall (st : Storage) (u : User) (at_time : Z),
         is_registration_open c at_time = Ok false
         /\ is_submission_open c at_time = Ok false
         /\ can_user_register st c u at_time
            = Ok (false, "Registration is not open").
Proof.
  intros uuid slug [n ca d ty rs re cs ce] created_by now c.
  unfold create_competition. simpl.
  destruct n; [| discriminate].
  destruct ca; [| discriminate].
  destruct rs; [| discriminate].
  destruct re; [| discriminate].
  destruct cs; [| discriminate].
  destruct ce; [| discriminate].
  simpl. intros [= <-]. simpl.
  repeat split; try reflexivity; eexists; reflexivity.
Qed.

Lemma created_competition_is_closed_witness :
  exists c,
    create_competition "comp-3" "ai-innovation-challenge-2024" demo_data
      "user-1" 0 = Ok c
    /\ competition_type c = TEAM
    /\ can_user_register demo_storage c demo_verified_user 5
       = Ok (false, "Registration is not open").
Proof.
  eexists. split; [reflexivity |].
  destruct (created_competition_is_closed "comp-3"
              "ai-innovation-challenge-2024" demo_data "user-1" 0 _ eq_refl)
    as (_ & _ & Hty & _ & _ & _ & _ & _ & Hclosed).
  split; [exact Hty | apply Hclosed].
Defined.

(** ** Users and sessions fresh from their constructors *)

(** X9: a user fresh from the constructor is active but unverified, so
    [can_participate_in_competition] refuses the user with "Email not
    verified" for every competition, whatever the storage holds, and no
    session that requires authentication, as every constructed session
    does, lets the user vote. *)
Theorem new_user_is_not_eligible :
  forall (uuid e fn ln : string) (created : Z),
    let u := User_init uuid e fn ln created in
    (forall (st : Storage) (c : Competition),
        can_participate_in_competition st u c = (false, "Email not verified"))
    /\ (forall (st : Storage) (s : VotingSession) (now : Z)
               (answer : bool * string),
          requires_authentication s = true ->
          can_user_vote st s u now = Ok answer ->
          answer = (false, "Voting session is not active")
          \/ answer = (false, "Email verification required"))
    /\ forall (sid competition name : string) (vt : VotingType)
              (created_by : string) (t0 : Z),
         requires_authentication
           (VotingSession_init sid competition name vt created_by t0) = true.
Proof.
  intros uuid e fn ln created u. subst u. split; [| split].
  - reflexivity.
  - intros st s now answer Hauth. unfold can_user_vote.
    destruct (is_active s now) as [[|] | err]; simpl;
      [| intros [= <-]; left; reflexivity | discriminate].
    rewrite Hauth. simpl. intros [= <-]. right. reflexivity.
  - reflexivity.
Qed.

Lemma new_user_is_not_eligible_witness :
  can_user_vote demo_storage demo_session demo_user 150
  = Ok (false, "Email verification required").
Proof.
  destruct (proj1 (proj2 (new_user_is_not_eligible "user-1"
                            "student@university.edu" "John" "Doe" 0))
              demo_storage demo_session 150
              (false, "Email verification required") eq_refl eq_refl)
    as [H | H]; [discriminate H | reflexivity].
Defined.

(** X10: a session fresh from the constructor is a draft: it is not active
    at any time and [can_user_vote] answers "Voting session is not active"
    to every user, without reading the window that the constructor does
    not assign. *)
Theorem new_session_is_not_active :
  forall (sid competition name : string) (vt : VotingType)
         (created_by : string) (t0 : Z) (st : Storage) (u : User) (now : Z),
    let s := VotingSession_init sid competition name vt created_by t0 in
    is_active s now = Ok false
    /\ can_user_vote st s u now = Ok (false, "Voting session is not active").
Proof. intros. split; reflexivity. Qed.

(** ** Windows that were never assigned *)

(** X11: [is_active], and with it [can_user_vote], raises exactly when the
    status is "active" and a window attribute it has to read is missing:
    [start_time], or [end_time] once the start is not after the current
    time. A session whose start is still ahead is reported inactive even
    without an [end_time]. *)
Theorem voting_window_errors :
  forall (st : Storage) (s : VotingSession) (u : User) (now : Z) (e : exn),
    (is_active s now = Raise e
     <-> session_status s = "active"
         /\ ((start_time s = None /\ e = AttributeError "start_time")
             \/ (exists b, start_time s = Some b /\ b <= now
                           /\ end_time s = None
                           /\ e = AttributeError "end_time")))
    /\ (can_user_vote st s u now = Raise e <-> is_active s now = Raise e)
    /\ (forall b, session_status s = "active" -> start_time s = Some b ->
                  now < b -> is_active s now = Ok false).
Proof.
  intros st s u now e. split; [| split].
  - unfold is_active.
    destruct (String.eqb_spec (session_status s) "active") as [Hs | Hs];
      simpl.
    + destruct (start_time s) as [b |].
      * destruct (Z.leb_spec b now) as [Hnow | Hnow].
        -- destruct (end_time s) as [en |]; split.
           ++ discriminate.
           ++ intros (_ & [[H _] | (b' & _ & _ & H & _)]); discriminate H.
           ++ intros [= <-]. split; [exact Hs |]. right. exists b. auto.
           ++ intros (_ & [[H _] | (b' & _ & _ & _ & ->)]);
                [discriminate H | reflexivity].
        -- split; [discriminate |].
           intros (_ & [[H _] | (b' & [= <-] & Hle & _)]);
             [discriminate H | lia].
      * split.
        -- intros [= <-]. split; [exact Hs |]. left. auto.
        -- intros (_ & [[_ ->] | (b' & H & _)]);
             [reflexivity | discriminate H].
    + split; [discriminate | intros [H _]; contradiction].
  - unfold can_user_vote.
    destruct (is_active s now) as [[|] | err]; simpl.
    + destruct (requires_authentication s && negb (email_verified u));
        [split; discriminate |].
      destruct (vote_changing_prevented s && has_user_voted st s (user_id u));
        split; discriminate.
    + split; discriminate.
    + split; intros [= ->]; reflexivity.
  - intros b Hs Hb Hlt. unfold is_active. rewrite Hs, Hb. simpl.
    destruct (Z.leb_spec b now) as [Hnow | Hnow]; [lia | reflexivity].
Qed.

Lemma voting_window_errors_witness :
  can_user_vote demo_storage demo_unscheduled_session demo_verified_user 5
  = Raise (AttributeError "start_time").
Proof.
  destruct (voting_window_errors demo_storage demo_unscheduled_session
              demo_verified_user 5 (AttributeError "start_time"))
    as (Hactive & Hvote & _).
  apply Hvote, Hactive. split; [reflexivity |]. left. auto.
Defined.

(** X12: [is_registration_open], and with it [can_user_register], raises
    exactly when the competition is published and a registration window
    attribute it has to read is missing: [registration_start], or
    [registration_end] once the start is not after the current time. *)
Theorem registration_window_errors :
  forall (st : Storage) (c : Competition) (u : User) (now : Z) (e : exn),
    (is_registration_open c now = Raise e
     <-> competition_status c = CS_PUBLISHED
         /\ ((registration_start c = None
              /\ e = AttributeError "registration_start")
             \/ (exists rs, registration_start c = Some rs /\ rs <= now
                            /\ registration_end c = None
                            /\ e = AttributeError "registration_end")))
    /\ (can_user_register st c u now = Raise e
        <-> is_registration_open c now = Raise e).
Proof.
  intros st c u now e. split.
  - unfold is_registration_open.
    destruct (decide (competition_status c = CS_PUBLISHED)) as [Hs | Hs].
    + rewrite bool_decide_eq_true_2 by exact Hs.
      destruct (registration_start c) as [rs |].
      * destruct (Z.leb_spec rs now) as [Hnow | Hnow].
        -- destruct (registration_end c) as [en |]; split.
           ++ discriminate.
           ++ intros (_ & [[H _] | (b' & _ & _ & H & _)]); discriminate H.
           ++ intros [= <-]. split; [exact Hs |]. right. exists rs. auto.
           ++ intros (_ & [[H _] | (b' & _ & _ & _ & ->)]);
                [discriminate H | reflexivity].
        -- split; [discriminate |].
           intros (_ & [[H _] | (b' & [= <-] & Hle & _)]);
             [discriminate H | lia].
      * split.
        -- intros [= <-]. split; [exact Hs |]. left. auto.
        -- intros (_ & [[_ ->] | (b' & H & _)]);
             [reflexivity | discriminate H].
    + rewrite bool_decide_eq_false_2 by exact Hs.
      split; [discriminate | intros [H _]; contradiction].
  - unfold can_user_register.
    destruct (is_registration_open c now) as [[|] | err]; simpl;
      [split; discriminate | split; discriminate
      | split; intros [= ->]; reflexivity].
Qed.

Lemma registration_window_errors_witness :
  can_user_register demo_storage demo_unscheduled_competition
    demo_verified_user 5
  = Raise (AttributeError "registration_start").
Proof.
  destruct (registration_window_errors demo_storage
              demo_unscheduled_competition demo_verified_user 5
              (AttributeError "registration_start"))
    as (Hopen & Hreg).
  apply Hreg, Hopen. split; [reflexivity |]. left. auto.
Defined.

(** ** Submissions: every outcome of [submit] *)

Lemma can_submit_true_iff st s now :
  fst (can_submit st s now) = true
  <-> submission_status s = DRAFT
      /\ has_required_files st s = true
      /\ deadline_not_passed st s now.
Proof.
  unfold can_submit, deadline_not_passed.
  destruct (decide (submission_status s = DRAFT)) as [Hs | Hs].
  - rewrite bool_decide_eq_true_2 by exact Hs. simpl.
    destruct (has_required_files st s); simpl;
      [| split; [discriminate | intros (_ & H & _); discriminate H]].
    destruct (get_round_info st s) as [ri |]; [| tauto].
    destruct (submission_deadline ri) as [d |]; [| tauto].
    destruct (Z.gtb_spec now d) as [Hgt | Hle]; simpl.
    + split; [discriminate | intros (_ & _ & H); lia].
    + tauto.
  - rewrite bool_decide_eq_false_2 by exact Hs. simpl.
    split; [discriminate | intros [H _]; contradiction].
Qed.

(** X13: [submit] succeeds exactly when the submission is a draft, its
    required files are there and the deadline has not passed. A draft
    without its files is refused with "Missing required files" and a
    complete draft past the deadline with "Submission deadline has passed";
    in every refusal the error is a [ValueError] and the submission is left
    as it was. *)
Theorem submit_outcomes :
  forall (st : Storage) (s : Submission) (now_check now_stamp : Z),
    (fst (submit st s now_check now_stamp) = Ok tt
     <-> submission_status s = DRAFT
         /\ has_required_files st s = true
         /\ deadline_not_passed st s now_check)
    /\ (submission_status s = DRAFT -> has_required_files st s = false ->
        submit st s now_check now_stamp
        = (Raise (ValueError "Missing required files"), s))
    /\ (submission_status s = DRAFT -> has_required_files st s = true ->
        ~ deadline_not_passed st s now_check ->
        submit st s now_check now_stamp
        = (Raise (ValueError "Submission deadline has passed"), s))
    /\ (fst (submit st s now_check now_stamp) <> Ok tt ->
        snd (submit st s now_check now_stamp) = s
        /\ exists reason,
             fst (submit st s now_check now_stamp) = Raise (ValueError reason)).
Proof.
  intros st s now_check now_stamp.
  pose proof (can_submit_true_iff st s now_check) as Hiff.
  split; [| split; [| split]].
  - rewrite <- Hiff. unfold submit.
    destruct (can_submit st s now_check) as [[|] reason]; simpl;
      [tauto | split; discriminate].
  - intros Hs Hf. unfold submit, can_submit.
    rewrite bool_decide_eq_true_2 by exact Hs. rewrite Hf. reflexivity.
  - intros Hs Hf Hd. unfold submit, can_submit, deadline_not_passed in *.
    rewrite bool_decide_eq_true_2 by exact Hs. rewrite Hf. simpl.
    destruct (get_round_info st s) as [ri |]; [| tauto].
    destruct (submission_deadline ri) as [d |]; [| tauto].
    destruct (Z.gtb_spec now_check d) as [Hgt | Hle]; [reflexivity | lia].
  - unfold submit.
    destruct (can_submit st s now_check) as [[|] reason]; simpl;
      [intros H; exfalso; apply H; reflexivity |].
    intros _. split; [reflexivity | eexists; reflexivity].
Qed.

Lemma submit_outcomes_witness :
  submit demo_storage demo_submission 501 502
  = (Raise (ValueError "Submission deadline has passed"), demo_submission).
Proof.
  apply (proj1 (proj2 (proj2 (submit_outcomes demo_storage demo_submission
                                501 502))));
    [reflexivity | reflexivity |].
  unfold deadline_not_passed. simpl. lia.
Defined.

(** X14: the deadline check is monotone in time. A submission that can be
    submitted at some time could be submitted at every earlier time, and one
    refused with "Submission deadline has passed" is refused with the same
    reason at every later time. *)
Theorem can_submit_monotone :
  forall (st : Storage) (s : Submission) (earlier later : Z),
    earlier <= later ->
    (can_submit st s later = (true, "Can submit") ->
     can_submit st s earlier = (true, "Can submit"))
    /\ (can_submit st s earlier = (false, "Submission deadline has passed") ->
        can_submit st s later = (false, "Submission deadline has passed")).
Proof.
  intros st s earlier later Hle. unfold can_submit.
  destruct (negb (bool_decide (submission_status s = DRAFT)));
    [split; discriminate |].
  destruct (negb (has_required_files st s)); [split; discriminate |].
  destruct (get_round_info st s) as [ri |]; [| split; [trivial | discriminate]].
  destruct (submission_deadline ri) as [d |];
    [| split; [trivial | discriminate]].
  destruct (Z.gtb_spec earlier d), (Z.gtb_spec later d);
    split; try discriminate; try reflexivity; lia.
Qed.

Lemma can_submit_monotone_witness :
  can_submit demo_storage demo_submission 700
  = (false, "Submission deadline has passed").
Proof.
  apply (proj2 (can_submit_monotone demo_storage demo_submission 501 700
                  ltac:(lia))).
  reflexivity.
Defined.

(** ** The placeholders of the sources *)

(** X15: with the query placeholders as the sources have them, [submit]
    finalises every draft at any time (status submitted, [submitted_at]
    the time of the stamp, [is_final] true, every other field kept), a
    verified active user may participate in any competition, and a
    verified user may vote in any active session even when
    [prevent_vote_changing] is set: files, deadlines, stored registrations
    and recorded votes are never found. *)
Theorem placeholders_always_pass :
  forall (competitions : string -> option Competition)
         (teams : string -> option Team),
    let st := placeholder_storage competitions teams in
    (forall (s : Submission) (now_check now_stamp : Z),
        submission_status s = DRAFT ->
        submit st s now_check now_stamp = (Ok tt, finalised s now_stamp))
    /\ (forall (u : User) (c : Competition),
          account_status u = ACTIVE -> email_verified u = true ->
          can_participate_in_competition st u c = (true, "Can participate"))
    /\ (forall (s : VotingSession) (u : User) (now : Z),
          session_active s now -> email_verified u = true ->
          can_user_vote st s u now = Ok (true, "Can vote")).
Proof.
  intros competitions teams st. subst st. split; [| split].
  - intros s n1 n2 Hs. unfold submit, can_submit.
    rewrite bool_decide_eq_true_2 by exact Hs. reflexivity.
  - intros u c Ha He. unfold can_participate_in_competition.
    rewrite bool_decide_eq_true_2 by exact Ha. rewrite He. reflexivity.
  - intros s u now Hact He.
    rewrite (can_user_vote_active _ s u now (is_active_true s now Hact)).
    rewrite He. simpl. rewrite !andb_false_r. reflexivity.
Qed.

Lemma placeholders_always_pass_witness :
  can_user_vote (placeholder_storage (fun _ => None) (fun _ => None))
    demo_session demo_verified_user 150
  = Ok (true, "Can vote")
  /\ submit (placeholder_storage (fun _ => None) (fun _ => None))
       demo_submission 900 901
     = (Ok tt, finalised demo_submission 901)
  /\ submission_status (finalised demo_submission 901) = SUBMITTED
  /\ submitted_at (finalised demo_submission 901) = Some 901.
Proof.
  destruct (placeholders_always_pass (fun _ => None) (fun _ => None))
    as (Hsubmit & _ & Hvote).
  split; [| split; [| split; reflexivity]].
  - apply Hvote; [| reflexivity].
    split; [reflexivity |]. exists 100, 200. repeat split; lia.
  - apply Hsubmit. reflexivity.
Defined.

(** ** The registration service *)

(** X16: [register_for_competition] returns a Registration exactly when
    the competition is found and either no team is given and the
    competition is not team-only, or the given team is found, is captained
    by the user and the competition is not individual-only. The
    Registration is for the found competition's own id, with the user or
    the team as participant and empty registration data. *)
Theorem register_for_competition_succeeds_iff :
  forall (st : Storage) (cid : string) (u : User) (team : option string)
         (reg : Registration),
    register_for_competition st cid u team = Ok reg
    <-> exists c,
          Competition_get_by_id st cid = Some c
          /\ ((given team = None /\ competition_type c <> TEAM
               /\ reg = mkRegistration (competition_id c) "individual"
                          (user_id u) ∅)
              \/ (exists tid t,
                    given team = Some tid
                    /\ Team_get_by_id st tid = Some t
                    /\ captain_id t = user_id u
                    /\ competition_type c <> INDIVIDUAL
                    /\ reg = mkRegistration (competition_id c) "team" tid ∅)).
Proof.
  intros st cid u team reg. unfold register_for_competition.
  destruct (Competition_get_by_id st cid) as [c |];
    [| split; [discriminate | intros (c & H & _); discriminate H]].
  destruct (given team) as [tid |].
  - destruct (Team_get_by_id st tid) as [t |] eqn:Ht.
    + destruct (String.eqb_spec (captain_id t) (user_id u)) as [Hcap | Hcap];
        simpl.
      * unfold register_participant, _validate_registration. simpl.
        destruct (competition_type c) eqn:Hty; simpl; split;
          try discriminate.
        -- intros (c' & [= <-] & [(H & _) | (tid' & t' & _ & _ & _ & H & _)]);
             [discriminate H | congruence].
        -- intros [= <-]. exists c. split; [reflexivity |]. right.
           exists tid, t. rewrite Hty. repeat split; auto; discriminate.
        -- intros (c' & [= <-]
                   & [(H & _) | (tid' & t' & [= <-] & _ & _ & _ & ->)]);
             [discriminate H |]. reflexivity.
        -- intros [= <-]. exists c. split; [reflexivity |]. right.
           exists tid, t. rewrite Hty. repeat split; auto; discriminate.
        -- intros (c' & [= <-]
                   & [(H & _) | (tid' & t' & [= <-] & _ & _ & _ & ->)]);
             [discriminate H |]. reflexivity.
      * split; [discriminate |].
        intros (c' & _ & [(H & _) | (tid' & t' & [= <-] & Ht' & Hc & _)]);
          [discriminate H |].
        rewrite Ht in Ht'. injection Ht' as <-. contradiction.
    + split; [discriminate |].
      intros (c' & _ & [(H & _) | (tid' & t' & [= <-] & Ht' & _)]);
        [discriminate H | rewrite Ht in Ht'; discriminate Ht'].
  - unfold register_participant, _validate_registration. simpl.
    destruct (competition_type c) eqn:Hty; simpl; split; try discriminate.
    + intros [= <-]. exists c. split; [reflexivity |]. left.
      rewrite Hty. repeat split; auto; discriminate.
    + intros (c' & [= <-] & [(_ & _ & ->) | (tid' & t' & H & _)]);
        [| discriminate H]. reflexivity.
    + intros (c' & [= <-] & [(_ & H & _) | (tid' & t' & H & _)]);
        [congruence | discriminate H].
    + intros [= <-]. exists c. split; [reflexivity |]. left.
      rewrite Hty. repeat split; auto; discriminate.
    + intros (c' & [= <-] & [(_ & _ & ->) | (tid' & t' & H & _)]);
        [| discriminate H]. reflexivity.
Qed.

(** X17: the refusals of [register_for_competition], by what the two
    lookups return. No competition: "Competition not found", whatever the
    team. A competition and a team id but no team: "Team not found". A
    team whose captain is another user: "Only team captain can register
    team", whatever the competition type. The captain's team into an
    individual-only competition: "Team registration not allowed for
    individual competition". No team id and a team-only competition:
    "Individual registration not allowed for team competition". *)
Theorem register_for_competition_errors :
  forall (st : Storage) (cid : string) (u : User) (team : option string),
    (Competition_get_by_id st cid = None ->
     register_for_competition st cid u team
     = Raise (ValueError "Competition not found"))
    /\ (forall c tid,
          Competition_get_by_id st cid = Some c ->
          given team = Some tid ->
          Team_get_by_id st tid = None ->
          register_for_competition st cid u team
          = Raise (ValueError "Team not found"))
    /\ (forall c tid t,
          Competition_get_by_id st cid = Some c ->
          given team = Some tid ->
          Team_get_by_id st tid = Some t ->
          captain_id t <> user_id u ->
          register_for_competition st cid u team
          = Raise (ValueError "Only team captain can register team"))
    /\ (forall c tid t,
          Competition_get_by_id st cid = Some c ->
          given team = Some tid ->
          Team_get_by_id st tid = Some t ->
          captain_id t = user_id u ->
          competition_type c = INDIVIDUAL ->
          register_for_competition st cid u team
          = Raise (ValueError
              "Team registration not allowed for individual competition"))
    /\ (forall c,
          Competition_get_by_id st cid = Some c ->
          given team = None ->
          competition_type c = TEAM ->
          register_for_competition st cid u team
          = Raise (ValueError
              "Individual registration not allowed for team competition")).
Proof.
  intros st cid u team. unfold register_for_competition.
  split; [| split; [| split; [| split]]].
  - intros ->. reflexivity.
  - intros c tid -> -> ->. reflexivity.
  - intros c tid t -> -> -> Hcap.
    destruct (String.eqb_spec (captain_id t) (user_id u));
      [contradiction | reflexivity].
  - intros c tid t -> -> -> Hcap Hty. rewrite Hcap, String.eqb_refl. simpl.
    unfold register_participant, _validate_registration. rewrite Hty.
    reflexivity.
  - intros c -> -> Hty.
    unfold register_participant, _validate_registration. rewrite Hty.
    reflexivity.
Qed.

Lemma register_for_competition_errors_witness :
  register_for_competition
    (placeholder_storage (fun _ => None) (fun _ => None))
    "comp-1" demo_user (Some "team-1")
  = Raise (ValueError "Competition not found")
  /\ register_for_competition demo_team_storage "comp-1" demo_verified_user
       (Some "team-1")
     = Raise (ValueError "Only team captain can register team").
Proof.
  split.
  - apply (proj1 (register_for_competition_errors
                    (placeholder_storage (fun _ => None) (fun _ => None))
                    "comp-1" demo_user (Some "team-1"))).
    reflexivity.
  - apply (proj1 (proj2 (proj2 (register_for_competition_errors
                                  demo_team_storage "comp-1"
                                  demo_verified_user (Some "team-1"))))
             demo_competition "team-1" demo_team);
      [reflexivity | reflexivity | reflexivity | discriminate].
Defined.

(** X18: the service reads nothing of the user but the id: two users with
    one id get the same result, whatever their account status and email
    verification, so [can_participate_in_competition] is not consulted.
    An empty team id is read as no team. *)
Theorem register_for_competition_reads_user_id_only :
  forall (st : Storage) (cid : string) (u u' : User) (team : option string),
    (user_id u = user_id u' ->
     register_for_competition st cid u team
     = register_for_competition st cid u' team)
    /\ register_for_competition st cid u (Some "")
       = register_for_competition st cid u None.
Proof.
  intros st cid u u' team. split; [| reflexivity].
  intros Hid. unfold register_for_competition. rewrite Hid. reflexivity.
Qed.

Lemma register_for_competition_reads_user_id_only_witness :
  let suspended :=
    {| user_id := "user-2"; email := "ada@university.edu";
       first_name := "Ada"; last_name := "Byron";
       account_status := SUSPENDED; email_verified := false;
       user_created_at := 0 |} in
  fst (can_participate_in_competition demo_team_storage suspended
         demo_competition) = false
  /\ register_for_competition demo_team_storage "comp-1" suspended None
     = Ok (mkRegistration "comp-1" "individual" "user-2" ∅).
Proof.
  intros suspended. split; [reflexivity |].
  rewrite (proj1 (register_for_competition_reads_user_id_only
                    demo_team_storage "comp-1" suspended demo_verified_user
                    None) eq_refl).
  reflexivity.
Defined.

(** X19: creation and registration together, as in the usage example. For
    a competition created from [data] and found by the storage, the
    captain of a found team registers the team exactly when [data] gives
    the type team or hybrid. When [data] has no type the competition is
    individual and the team is refused with "Team registration not allowed
    for individual competition". *)
Theorem created_competition_team_registration :
  forall (st : Storage) (uuid slug : string) (data : CompetitionData)
         (created_by : string) (now : Z) (c : Competition) (cid tid : string)
         (t : Team) (u : User),
    create_competition uuid slug data created_by now = Ok c ->
    Competition_get_by_id st cid = Some c ->
    tid <> "" ->
    Team_get_by_id st tid = Some t ->
    captain_id t = user_id u ->
    (data_type data = Some TEAM \/ data_type data = Some HYBRID ->
     register_for_competition st cid u (Some tid)
     = Ok (mkRegistration uuid "team" tid ∅))
    /\ (data_type data = None \/ data_type data = Some INDIVIDUAL ->
        register_for_competition st cid u (Some tid)
        = Raise (ValueError
            "Team registration not allowed for individual competition")).
Proof.
  intros st uuid slug [n ca d ty rs re cs ce] created_by now c cid tid t u.
  unfold create_competition. simpl.
  destruct n; [| discriminate].
  destruct ca; [| discriminate].
  destruct rs; [| discriminate].
  destruct re; [| discriminate].
  destruct cs; [| discriminate].
  destruct ce; [| discriminate].
  simpl. intros [= <-] Hc Htid Ht Hcap.
  unfold register_for_competition. rewrite Hc. simpl.
  destruct (String.eqb_spec tid ""); [contradiction |].
  rewrite Ht, Hcap, String.eqb_refl. simpl.
  unfold register_participant, _validate_registration. simpl.
  split; intros [-> | ->]; reflexivity.
Qed.

Lemma created_competition_team_registration_witness :
  exists c,
    create_competition "comp-3" "ai-innovation-challenge-2024" demo_data
      "user-1" 0 = Ok c
    /\ register_for_competition
         (placeholder_storage (fun _ => Some c) (fun _ => Some demo_team))
         "comp-3" demo_user (Some "team-1")
       = Ok (mkRegistration "comp-3" "team" "team-1" ∅).
Proof.
  eexists. split; [reflexivity |].
  apply (proj1 (created_competition_team_registration
                  (placeholder_storage _ (fun _ => Some demo_team))
                  "comp-3" "ai-innovation-challenge-2024" demo_data "user-1" 0
                  _ "comp-3" "team-1" demo_team demo_user
                  eq_refl eq_refl ltac:(discriminate) eq_refl eq_refl)).
  left. reflexivity.
Defined.

(** ** Registration and submission windows *)

(** X20: [is_registration_open] answers true exactly when the competition
    is published and the time lies within the assigned registration
    window, [is_submission_open] exactly when the competition is active
    and the time lies within the assigned competition window. The two are
    never true together, whatever the windows are, overlapping ones
    included. *)
Theorem open_windows :
  forall (c : Competition) (now : Z),
    (is_registration_open c now = Ok true <-> registration_open_at c now)
    /\ (is_submission_open c now = Ok true <-> submission_open_at c now)
    /\ ~ (is_registration_open c now = Ok true
          /\ is_submission_open c now = Ok true).
Proof.
  intros c now.
  assert (Hreg : is_registration_open c now = Ok true
                 -> registration_open_at c now).
  { unfold is_registration_open, registration_open_at.
    destruct (decide (competition_status c = CS_PUBLISHED)) as [Hs | Hs].
    - rewrite bool_decide_eq_true_2 by exact Hs.
      destruct (registration_start c) as [rs |]; [| discriminate].
      destruct (Z.leb_spec rs now) as [Hlo | Hlo]; [| discriminate].
      destruct (registration_end c) as [re |]; [| discriminate].
      intros [= Hhi]. apply Z.leb_le in Hhi.
      split; [exact Hs |]. exists rs, re. auto.
    - rewrite bool_decide_eq_false_2 by exact Hs. discriminate. }
  assert (Hsub : is_submission_open c now = Ok true
                 <-> submission_open_at c now).
  { unfold is_submission_open, submission_open_at. split.
    - destruct (decide (competition_status c = CS_ACTIVE)) as [Hs | Hs].
      + rewrite bool_decide_eq_true_2 by exact Hs.
        destruct (competition_start c) as [cs |]; [| discriminate].
        destruct (Z.leb_spec cs now) as [Hlo | Hlo]; [| discriminate].
        destruct (competition_end c) as [ce |]; [| discriminate].
        intros [= Hhi]. apply Z.leb_le in Hhi.
        split; [exact Hs |]. exists cs, ce. auto.
      + rewrite bool_decide_eq_false_2 by exact Hs. discriminate.
    - intros (Hs & cs & ce & -> & -> & Hlo & Hhi).
      rewrite bool_decide_eq_true_2 by exact Hs.
      destruct (Z.leb_spec cs now) as [_ | Hno]; [| lia].
      destruct (Z.leb_spec now ce) as [_ | Hno]; [reflexivity | lia]. }
  split; [split; [exact Hreg | apply is_registration_open_true] |].
  split; [exact Hsub |].
  intros [Hr Hs]. apply Hreg in Hr. apply Hsub in Hs.
  destruct Hr as [Hr _], Hs as [Hs _]. congruence.
Qed.

(** ** The rapid-vote stage on whole frames *)

Lemma rapid_cases (d : option Z) :
  (rapid d = 0 \/ rapid d = 1)
  /\ (rapid d = 1 ->
      exists gap, d = Some gap /\ gap < 5 * NANOSECONDS_PER_SECOND).
Proof.
  unfold rapid. destruct d as [gap |].
  - destruct (Z.ltb_spec gap (5 * NANOSECONDS_PER_SECOND)) as [Hlt | Hge].
    + split; [right; reflexivity |]. intros _. exists gap. auto.
    + split; [left; reflexivity | discriminate].
  - split; [left; reflexivity | discriminate].
Qed.

Lemma detect_from_columns last df scored :
  detect_from last df = Returns scored ->
  Forall (fun s =>
            rapid_vote_anomaly s = rapid (vote_time_diff s)
            /\ (vote_time_diff s <> None -> vote_timestamp (row s) <> None))
    scored.
Proof.
  revert last scored. induction df as [| r rest IH]; intros last scored.
  - intros [= <-]. constructor.
  - rewrite detect_from_cons.
    destruct (sub_timestamps (vote_timestamp r)
                (default None (last !! submission_id r))) as [d |] eqn:Hd;
      [| discriminate].
    destruct (detect_from _ rest) as [sc |] eqn:Hrest; [| discriminate].
    intros [= <-]. constructor; [| exact (IH _ _ Hrest)].
    simpl. split; [reflexivity |].
    intros Hsome Hnone. apply Hsome. rewrite Hnone in Hd.
    simpl in Hd. injection Hd as <-. reflexivity.
Qed.

(** X21: [detect_anomalies] returns whenever every difference between
    consecutive votes of one submission fits a 64-bit time difference, as
    it does when all timestamps lie within 2^62 nanoseconds of the epoch.
    What it returns keeps the frame: the rows in their order and number,
    each with a flag that is 0 or 1, and a flagged row has a timestamp and
    a time difference under five seconds. When one such difference leaves
    the 64-bit range the call raises [OverflowError]. *)
Theorem detect_anomalies_keeps_frame :
  forall df : list Row,
    (frame_fits df \/ timestamps_near_epoch df ->
     exists scored, detect_anomalies df = Returns scored)
    /\ (forall scored,
          detect_anomalies df = Returns scored ->
          map row scored = df
          /\ length scored = length df
          /\ Forall (fun s =>
                       (rapid_vote_anomaly s = 0 \/ rapid_vote_anomaly s = 1)
                       /\ (rapid_vote_anomaly s = 1 ->
                           vote_timestamp (row s) <> None
                           /\ exists gap,
                                vote_time_diff s = Some gap
                                /\ gap < 5 * NANOSECONDS_PER_SECOND))
               scored)
    /\ (forall (p v : Row) (t1 t2 : Z),
          consecutive df p v ->
          vote_timestamp p = Some t1 ->
          vote_timestamp v = Some t2 ->
          t2 - t1 < INT64_MIN \/ INT64_MAX < t2 - t1 ->
          detect_anomalies df = OverflowError).
Proof.
  intros df. split; [| split].
  - intros [Hfits | Hnear]; apply frame_fits_returns;
      [exact Hfits | exact (near_epoch_fits df Hnear)].
  - intros scored Hret. unfold detect_anomalies in Hret.
    pose proof (detect_from_rows _ _ _ Hret) as Hrows.
    split; [exact Hrows |]. split.
    + pose proof (f_equal length Hrows) as Hlen.
      rewrite length_map in Hlen. exact Hlen.
    + eapply Forall_impl; [exact (detect_from_columns _ _ _ Hret) |].
      intros s [Hflag Hts]. simpl. rewrite Hflag.
      destruct (rapid_cases (vote_time_diff s)) as [Hcases Hone].
      split; [exact Hcases |].
      intros H1. destruct (Hone H1) as (gap & Hgap & Hlt).
      split; [apply Hts; congruence | exists gap; auto].
  - intros p v t1 t2 (pre & mid & post & -> & Hsame & Hmid) Hp Hv Hout.
    unfold detect_anomalies.
    replace (pre ++ p :: mid ++ v :: post)%list
      with ((pre ++ p :: mid) ++ v :: post)%list
      by (rewrite <- app_assoc; reflexivity).
    apply detect_from_overflow.
    rewrite (previous_of_pair pre p mid v Hsame Hmid), Hp, Hv.
    apply sub_timestamps_overflow. exact Hout.
Qed.

Lemma detect_anomalies_keeps_frame_witness :
  (exists scored, detect_anomalies demo_votes = Returns scored)
  /\ detect_anomalies
       [mkRow 7 (Some INT64_MAX); mkRow 8 (Some 0); mkRow 7 (Some (-2))]
     = OverflowError.
Proof.
  split.
  - apply (proj1 (detect_anomalies_keeps_frame demo_votes)). right.
    unfold timestamps_near_epoch, demo_votes.
    repeat constructor; vm_compute; discriminate.
  - apply (proj2 (proj2 (detect_anomalies_keeps_frame
                           [mkRow 7 (Some INT64_MAX); mkRow 8 (Some 0);
                            mkRow 7 (Some (-2))]))
             (mkRow 7 (Some INT64_MAX)) (mkRow 7 (Some (-2)))
             INT64_MAX (-2)); try reflexivity.
    + exists [], [mkRow 8 (Some 0)], [].
      split; [reflexivity |]. split; [reflexivity |].
      repeat constructor. discriminate.
    + left. vm_compute. reflexivity.
Defined.

Lemma detect_from_group (k : Z) (last last' : gmap Z (option Z))
    (df : list Row) (scored : list Scored) :
  last !! k = last' !! k ->
  detect_from last df = Returns scored ->
  detect_from last' (filter (fun r => submission_id r = k) df)
  = Returns (filter (fun s => submission_id (row s) = k) scored).
Proof.
  revert last last' scored.
  induction df as [| r rest IH]; intros last last' scored Hk.
  - intros [= <-]. reflexivity.
  - rewrite detect_from_cons.
    destruct (sub_timestamps (vote_timestamp r)
                (default None (last !! submission_id r))) as [d |] eqn:Hd;
      [| discriminate].
    destruct (detect_from _ rest) as [sc |] eqn:Hrest; [| discriminate].
    intros [= <-]. rewrite !filter_cons. simpl.
    destruct (decide (submission_id r = k)) as [Hr | Hr].
    + rewrite detect_from_cons. rewrite Hr in Hd, Hrest |- *.
      rewrite <- Hk, Hd.
      assert (Hk' : <[k := vote_timestamp r]> last !! k
                    = <[k := vote_timestamp r]> last' !! k)
        by (rewrite !lookup_insert_eq; reflexivity).
      rewrite (IH _ _ _ Hk' Hrest). reflexivity.
    + apply (IH (<[submission_id r := vote_timestamp r]> last) last' sc);
        [| exact Hrest].
      rewrite lookup_insert_ne by exact Hr. exact Hk.
Qed.

(** X22: the submissions do not influence one another's rows. Whenever
    [detect_anomalies] returns on a frame, it returns on the frame that
    holds one submission's votes alone, and gives exactly the scored rows
    of that submission from the whole frame: votes on other submissions
    in between change neither differences nor flags. *)
Theorem detect_anomalies_per_submission :
  forall (df : list Row) (k : Z) (scored : list Scored),
    detect_anomalies df = Returns scored ->
    detect_anomalies (filter (fun r => submission_id r = k) df)
    = Returns (filter (fun s => submission_id (row s) = k) scored).
Proof.
  intros df k scored. unfold detect_anomalies.
  apply detect_from_group. reflexivity.
Qed.

Lemma detect_anomalies_per_submission_witness :
  detect_anomalies (filter (fun r => submission_id r = 7) demo_votes)
  = Returns [mkScored (vote_at 7 0) None 0;
             mkScored (vote_at 7 3) (Some (3 * NANOSECONDS_PER_SECOND)) 1;
             mkScored (vote_at 7 13) (Some (10 * NANOSECONDS_PER_SECOND)) 0].
Proof.
  rewrite (detect_anomalies_per_submission demo_votes 7
             [mkScored (vote_at 7 0) None 0; mkScored (vote_at 8 1) None 0;
              mkScored (vote_at 7 3) (Some (3 * NANOSECONDS_PER_SECOND)) 1;
              mkScored (vote_at 7 13) (Some (10 * NANOSECONDS_PER_SECOND)) 0]
             eq_refl).
  reflexivity.
Defined.

Lemma detect_from_first_votes (last : gmap Z (option Z)) (df : list Row) :
  NoDup (map submission_id df) ->
  Forall (fun r => last !! submission_id r = None) df ->
  exists scored,
    detect_from last df = Returns scored
    /\ length scored = length df
    /\ Forall (fun s => rapid_vote_anomaly s = 0) scored.
Proof.
  revert last. induction df as [| r rest IH]; intros last Hnd Hnew.
  - exists []. repeat split; constructor.
  - simpl in Hnd. apply NoDup_cons in Hnd. destruct Hnd as [Hr Hnd].
    inversion Hnew as [| ? ? Hlast Hrest]; subst.
    destruct (IH (<[submission_id r := vote_timestamp r]> last) Hnd)
      as (sc & Hsc & Hlen & Hflags).
    { rewrite Forall_forall in Hrest |- *. intros r' Hin.
      rewrite lookup_insert_ne; [apply Hrest; exact Hin |].
      intros Heq. apply Hr. rewrite Heq.
      apply list_elem_of_fmap. exists r'. split; [reflexivity | exact Hin]. }
    rewrite detect_from_cons, Hlast. simpl.
    rewrite sub_timestamps_NaT by (right; reflexivity). rewrite Hsc.
    eexists. split; [reflexivity |].
    split; [simpl; rewrite Hlen; reflexivity |].
    constructor; [reflexivity | exact Hflags].
Qed.

(** X23: in a frame with at most one vote per submission
    [detect_anomalies] returns, whatever the timestamps are, and flags no
    row. *)
Theorem single_votes_are_not_flagged :
  forall df : list Row,
    NoDup (map submission_id df) ->
    exists scored,
      detect_anomalies df = Returns scored
      /\ length scored = length df
      /\ Forall (fun s => rapid_vote_anomaly s = 0) scored.
Proof.
  intros df Hnd. apply detect_from_first_votes; [exact Hnd |].
  apply Forall_forall. intros r _. apply lookup_empty.
Qed.

Lemma single_votes_are_not_flagged_witness :
  exists scored,
    detect_anomalies [vote_at 1 0; vote_at 2 1; vote_at 3 2] = Returns scored
    /\ length scored = 3%nat
    /\ Forall (fun s => rapid_vote_anomaly s = 0) scored.
Proof.
  apply (single_votes_are_not_flagged
           [vote_at 1 0; vote_at 2 1; vote_at 3 2]).
  simpl. repeat (apply NoDup_cons_2); try apply NoDup_nil_2;
    intros Hin; repeat (apply elem_of_cons in Hin as [Hin | Hin];
                        [discriminate Hin |]);
    apply elem_of_nil in Hin; exact Hin.
Defined.

(** X24: rows at the edge of the comparison, on a frame whose differences
    between consecutive votes of one submission fit a 64-bit time
    difference. [detect_anomalies] returns; a vote without a timestamp is
    not flagged, nor is the vote whose previous vote on the same
    submission has none. Timestamps are compared in frame order: a vote
    whose timestamp lies before that of its previous vote on the same
    submission is flagged. *)
Theorem rapid_vote_edge_rows :
  forall df : list Row,
    frame_fits df ->
    exists scored,
      detect_anomalies df = Returns scored
      /\ (forall (pre : list Row) (v : Row) (post : list Row),
            df = (pre ++ v :: post)%list ->
            vote_timestamp v = None ->
            flag_at scored (length pre) = Some 0)
      /\ (forall (pre : list Row) (p : Row) (mid : list Row) (v : Row)
                 (post : list Row),
            df = (pre ++ p :: mid ++ v :: post)%list ->
            submission_id p = submission_id v ->
            Forall (fun r => submission_id r <> submission_id v) mid ->
            vote_timestamp p = None ->
            flag_at scored (length pre + S (length mid)) = Some 0)
      /\ forall (pre : list Row) (p : Row) (mid : list Row) (v : Row)
                (post : list Row) (t1 t2 : Z),
           df = (pre ++ p :: mid ++ v :: post)%list ->
           submission_id p = submission_id v ->
           Forall (fun r => submission_id r <> submission_id v) mid ->
           vote_timestamp p = Some t1 ->
           vote_timestamp v = Some t2 ->
           t2 < t1 ->
           flag_at scored (length pre + S (length mid)) = Some 1.
Proof.
  intros df Hfits.
  destruct (frame_fits_returns df Hfits) as (scored & Hret).
  exists scored. split; [exact Hret |]. split; [| split].
  - intros pre v post -> Hv. unfold detect_anomalies in Hret.
    destruct (detect_from_row _ _ _ _ _ Hret) as (d & Hd & Hsc).
    rewrite sub_timestamps_NaT in Hd by (left; exact Hv).
    injection Hd as <-. unfold flag_at. rewrite Hsc. reflexivity.
  - intros pre p mid v post -> Hsame Hmid Hp.
    destruct (flag_of_pair pre p mid v post scored Hret Hsame Hmid)
      as (d & Hd & Hflag).
    rewrite sub_timestamps_NaT in Hd by (right; exact Hp).
    injection Hd as <-. exact Hflag.
  - intros pre p mid v post t1 t2 -> Hsame Hmid Hp Hv Hlt.
    destruct (flag_of_pair pre p mid v post scored Hret Hsame Hmid)
      as (d & Hd & Hflag).
    rewrite Hp, Hv in Hd. rewrite sub_timestamps_fits in Hd.
    + injection Hd as <-. rewrite Hflag. unfold rapid.
      destruct (Z.ltb_spec (t2 - t1) (5 * NANOSECONDS_PER_SECOND))
        as [_ | Hge]; [reflexivity |].
      unfold NANOSECONDS_PER_SECOND in Hge. lia.
    + apply (Hfits p v t1 t2); [| exact Hp | exact Hv].
      exists pre, mid, post. auto.
Qed.

Lemma rapid_vote_edge_rows_witness :
  exists scored,
    detect_anomalies [vote_at 7 3600; mkRow 8 None; vote_at 7 0]
    = Returns scored
    /\ flag_at scored 2 = Some 1
    /\ flag_at scored 1 = Some 0.
Proof.
  assert (Hfits : frame_fits [vote_at 7 3600; mkRow 8 None; vote_at 7 0]).
  { apply near_epoch_fits. unfold timestamps_near_epoch.
    repeat constructor; vm_compute; try discriminate; exact I. }
  destruct (rapid_vote_edge_rows _ Hfits) as (scored & Hret & Hnat & _ & Hback).
  exists scored. split; [exact Hret |]. split.
  - apply (Hback [] (vote_at 7 3600) [mkRow 8 None] (vote_at 7 0) []
             (3600 * NANOSECONDS_PER_SECOND) (0 * NANOSECONDS_PER_SECOND));
      try reflexivity.
    repeat constructor. discriminate.
  - apply (Hnat [vote_at 7 3600] (mkRow 8 None) [vote_at 7 0]);
      reflexivity.
Defined.
